(** * MinIO hardware calculator: the converter and the validator

    A shallow embedding of [scripts/convert_to_json.py] (the normaliser of
    the spreadsheet rows) and of [scripts/validate_data.py] (the checklist
    run over the consolidated document), with the properties the
    specification states about them.

    Modelling conventions.
    - A row of a sheet is a record with one field per column the code
      reads.  [item.get('X')] is the projection [X item]; [None] stands for
      a key that is absent or holds Python's [None].  Columns the code
      compares or negates (preference rank, cores, drive bays) hold
      integers; columns it tests, prints or parses hold strings; columns it
      only copies hold [value]s.  Float cells, pandas' [NaN] among them,
      are not represented.
    - Strings are ASCII texts.
    - A Python float is the rational it denotes (the type [Q]); rounding
      and overflow are not modelled.  The values [inf] and [nan] are no
      rationals: an operation that would yield one stops with [NonFinite].
    - An exception is a value of [exn]; code that can raise lives in the
      monad [result].
    - Console output is left out, but for the lines the validator collects
      in its two lists. *)

From Stdlib Require Import ZArith QArith Qabs List Ascii String Sorted Lia Bool.
From stdpp Require Import gmap strings list fin_maps.
Import ListNotations.

Local Open Scope Z_scope.

(** ** Python values and exceptions *)

Inductive exn : Set :=
  | ValueError
  | KeyError
  | TypeError
  | ZeroDivisionError
  | NonFinite.  (* not a Python exception: an [inf] or [nan] float arose *)

Inductive result (A : Type) : Type :=
  | Ok (a : A)
  | Raise (e : exn).
Arguments Ok {A} a.
Arguments Raise {A} e.

Definition bind {A B} (r : result A) (k : A -> result B) : result B :=
  match r with
  | Ok a => k a
  | Raise e => Raise e
  end.

Notation "'do' x <- r ; k" := (bind r (fun x => k))
  (at level 10, x name, r at level 100, k at level 200).

(** [try: r except: d] with a bare [except], which catches every Python
    exception.  [NonFinite] is no exception and passes through. *)
Definition try_except {A} (r : result A) (d : A) : result A :=
  match r with
  | Ok a => Ok a
  | Raise NonFinite => Raise NonFinite
  | Raise _ => Ok d
  end.

(** A cell the code copies without looking at it. *)
Inductive value : Set :=
  | VNone
  | VInt (z : Z)
  | VStr (s : string).

(** Truth value of an optional string and of an optional integer:
    [None], [''] and [0] are false. *)
Definition truthy_str (o : option string) : bool :=
  match o with
  | Some (String _ _) => true
  | _ => false
  end.

Definition truthy_int (o : option Z) : bool :=
  match o with
  | Some z => negb (z =? 0)
  | None => false
  end.

(** [a or b] *)
Definition or_str (a b : option string) : option string :=
  if truthy_str a then a else b.

Definition or_int (a b : option Z) : option Z :=
  if truthy_int a then a else b.

Definition truthy_value (v : value) : bool :=
  match v with
  | VNone => false
  | VInt z => negb (z =? 0)
  | VStr s => truthy_str (Some s)
  end.

Definition or_value (a b : value) : value :=
  if truthy_value a then a else b.

(** [pd.isna] on a cell: the absent marker. *)
Definition isna (o : option string) : bool :=
  match o with
  | None => true
  | Some _ => false
  end.

(** ** Strings *)

Module Str.

Definition is_lower (c : ascii) : bool :=
  let n := nat_of_ascii c in (97 <=? n)%nat && (n <=? 122)%nat.

Definition upper_char (c : ascii) : ascii :=
  if is_lower c then ascii_of_nat (nat_of_ascii c - 32) else c.

(** [s.upper()] on ASCII text *)
Fixpoint upper (s : string) : string :=
  match s with
  | EmptyString => EmptyString
  | String c s' => String (upper_char c) (upper s')
  end.

(** [sub in s] *)
Fixpoint contains (sub s : string) : bool :=
  String.prefix sub s ||
  match s with
  | EmptyString => false
  | String _ s' => contains sub s'
  end.

(** [s.replace(old, new)] for a non-empty [old]: occurrences are taken
    from the left and do not overlap.  [skip] counts the characters of
    an occurrence still to be dropped. *)
Fixpoint replace_from (old new : string) (skip : nat) (s : string) : string :=
  match s with
  | EmptyString => EmptyString
  | String c s' =>
      match skip with
      | S k => replace_from old new k s'
      | O =>
          if String.prefix old s
          then String.append new (replace_from old new (String.length old - 1) s')
          else String c (replace_from old new 0 s')
      end
  end.

Definition replace (old new s : string) : string := replace_from old new 0 s.

(** [s.split(sep)] for a one-character separator *)
Fixpoint split (sep : ascii) (s : string) : list string :=
  match s with
  | EmptyString => [EmptyString]
  | String c s' =>
      if Ascii.eqb c sep then EmptyString :: split sep s'
      else match split sep s' with
           | [] => [String c EmptyString]
           | w :: ws => String c w :: ws
           end
  end.

(** The blanks [float] and [int] drop around an ASCII numeral. *)
Definition is_space (c : ascii) : bool :=
  let n := nat_of_ascii c in
  ((9 <=? n)%nat && (n <=? 13)%nat) || (n =? 32)%nat.

Fixpoint lstrip (s : list ascii) : list ascii :=
  match s with
  | c :: s' => if is_space c then lstrip s' else s
  | [] => []
  end.

(** [s] without the blanks at its ends, as a list of characters *)
Definition strip (s : string) : list ascii :=
  rev (lstrip (rev (lstrip (list_ascii_of_string s)))).

End Str.

(** ** Numerals: [float(s)] and [int(s)] *)

Module Numeral.

Definition digit (c : ascii) : option Z :=
  let n := nat_of_ascii c in
  if ((48 <=? n)%nat && (n <=? 57)%nat)%bool then Some (Z.of_nat (n - 48)) else None.

Definition is_underscore (c : ascii) : bool := (nat_of_ascii c =? 95)%nat.

(** The digits after the first one of a [digitpart]: a digit, or one
    underscore followed by a digit.  Returns the digits read, most
    significant first, and the rest of the input. *)
Fixpoint more_digits (s : list ascii) : list Z * list ascii :=
  match s with
  | c :: s' =>
      match digit c with
      | Some d => let '(ds, r) := more_digits s' in (d :: ds, r)
      | None =>
          if is_underscore c then
            match s' with
            | c' :: s'' =>
                match digit c' with
                | Some d => let '(ds, r) := more_digits s'' in (d :: ds, r)
                | None => ([], s)
                end
            | [] => ([], s)
            end
          else ([], s)
      end
  | [] => ([], [])
  end.

(** [digitpart ::= digit (["_"] digit)*] *)
Definition digitpart (s : list ascii) : option (list Z * list ascii) :=
  match s with
  | c :: s' =>
      match digit c with
      | Some d => let '(ds, r) := more_digits s' in Some (d :: ds, r)
      | None => None
      end
  | [] => None
  end.

Definition of_digits (ds : list Z) : Z :=
  fold_left (fun acc d => 10 * acc + d) ds 0.

Definition is_char (n : nat) (c : ascii) : bool := (nat_of_ascii c =? n)%nat.

(** An optional sign: [true] for a minus. *)
Definition sign (s : list ascii) : bool * list ascii :=
  match s with
  | c :: s' =>
      if is_char 45 c then (true, s')
      else if is_char 43 c then (false, s')
      else (false, s)
  | [] => (false, [])
  end.

(** [number ::= [digitpart] "." digitpart | digitpart ["."]]:
    the integer digits, the fraction digits and the rest. *)
Definition number (s : list ascii) : option (list Z * list Z * list ascii) :=
  match digitpart s with
  | Some (ip, r) =>
      match r with
      | c :: r' =>
          if is_char 46 c then
            match digitpart r' with
            | Some (fp, r'') => Some (ip, fp, r'')
            | None => Some (ip, [], r')
            end
          else Some (ip, [], r)
      | [] => Some (ip, [], [])
      end
  | None =>
      match s with
      | c :: r' =>
          if is_char 46 c then
            match digitpart r' with
            | Some (fp, r'') => Some ([], fp, r'')
            | None => None
            end
          else None
      | [] => None
      end
  end.

(** [exponent ::= ("e" | "E") [sign] digitpart], when the input goes on
    after the number.  [None]: the rest is no exponent. *)
Definition exponent (s : list ascii) : option Z :=
  match s with
  | [] => Some 0
  | c :: s' =>
      if (is_char 101 c || is_char 69 c)%bool then
        let '(neg, r) := sign s' in
        match digitpart r with
        | Some (ds, []) => Some (if neg then - of_digits ds else of_digits ds)
        | _ => None
        end
      else None
  end.

Definition pow10 (e : Z) : Q :=
  if e <? 0 then 1 # Z.to_pos (10 ^ (- e)) else inject_Z (10 ^ e).

Definition special (s : list ascii) : bool :=
  let u := Str.upper (string_of_list_ascii s) in
  (String.eqb u "INF" || String.eqb u "INFINITY" || String.eqb u "NAN")%bool.

(** [float(s)]: blanks around the numeral are dropped; the numeral is
    [[sign] (number [exponent] | inf | infinity | nan)]. *)
Definition float (s : string) : result Q :=
  let '(neg, body) := sign (Str.strip s) in
  if special body then Raise NonFinite
  else
    match number body with
    | Some (ip, fp, r) =>
        match exponent r with
        | Some e =>
            let mant := of_digits (ip ++ fp) in
            let q := (inject_Z mant * pow10 (e - Z.of_nat (List.length fp)))%Q in
            Ok (Qred (if neg then - q else q)%Q)
        | None => Raise ValueError
        end
    | None => Raise ValueError
    end.

(** [int(s)] in base ten: [[sign] digitpart] between blanks. *)
Definition int (s : string) : result Z :=
  let '(neg, body) := sign (Str.strip s) in
  match digitpart body with
  | Some (ds, []) => Ok (if neg then - of_digits ds else of_digits ds)
  | _ => Raise ValueError
  end.

End Numeral.

(** ** [convert_to_json.py]: field parsers *)

(** [parse_capacity(capacity_str)]: the capacity in terabytes. *)
Definition parse_capacity (capacity_str : option string) : result Q :=
  if (negb (truthy_str capacity_str) || isna capacity_str)%bool then Ok 0%Q
  else
    match capacity_str with
    | None => Ok 0%Q
    | Some s =>
        let capacity_str := Str.upper s in
        if Str.contains "TB" capacity_str then
          Numeral.float (Str.replace "TB" "" capacity_str)
        else if Str.contains "GB" capacity_str then
          do q <- Numeral.float (Str.replace "GB" "" capacity_str);
          Ok (Qred (q / 1000)%Q)
        else if Str.contains "PB" capacity_str then
          do q <- Numeral.float (Str.replace "PB" "" capacity_str);
          Ok (Qred (q * 1000)%Q)
        else Ok 0%Q
    end.

Record power_info : Set := { active : Q; idle : Q }.

(** [parse_power(power_str)]: the halves of ["<active>/<idle>"]. *)
Definition parse_power (power_str : option string) : result power_info :=
  let zero := {| active := 0; idle := 0 |} in
  if (negb (truthy_str power_str) || isna power_str)%bool then Ok zero
  else
    match power_str with
    | None => Ok zero
    | Some s =>
        if Str.contains "/" s then
          try_except
            (match Str.split "/" s with
             | [a; i] =>
                 do a' <- Numeral.float a;
                 do i' <- Numeral.float i;
                 Ok {| active := a'; idle := i' |}
             | _ => Raise ValueError
             end)
            zero
        else Ok zero
    end.

(** ** A [for] loop over a list, threading the loop state *)

Fixpoint for_each {S A : Type} (body : S -> A -> result S) (xs : list A) (s : S)
  : result S :=
  match xs with
  | [] => Ok s
  | x :: xs' => do s' <- body s x; for_each body xs' s'
  end.

(** ** [sorted(l, key=...)]

    Python's sort is stable and compares keys with [<] only.  For keys
    that [<] orders totally its result is the one of the stable insertion
    below. *)

Section Sorting.
Context {A K : Type} (key : A -> K) (lt : K -> K -> bool).

(** [x] stood before every element of [l] and stays before those whose
    key is not smaller. *)
Fixpoint insort (x : A) (l : list A) : list A :=
  match l with
  | [] => [x]
  | y :: l' => if lt (key y) (key x) then y :: insort x l' else x :: y :: l'
  end.

Definition sorted (l : list A) : list A := fold_right insort [] l.
End Sorting.

(** [a < b] on pairs: the first components that differ decide. *)
Definition tuple_lt {A B : Type} (eqA ltA : A -> A -> bool) (eqB ltB : B -> B -> bool)
  (a b : A * B) : bool :=
  if negb (eqA (fst a) (fst b)) then ltA (fst a) (fst b)
  else if negb (eqB (snd a) (snd b)) then ltB (snd a) (snd b)
  else false.

Definition Qlt_bool (a b : Q) : bool := negb (Qle_bool b a).

(** The key pairs of the three sorts and their [<]. *)
Definition rank_float_lt : Z * Q -> Z * Q -> bool :=
  tuple_lt Z.eqb Z.ltb Qeq_bool Qlt_bool.

Definition rank_int_lt : Z * Z -> Z * Z -> bool :=
  tuple_lt Z.eqb Z.ltb Z.eqb Z.ltb.

(** [x or d] for an integer cell and an integer default. *)
Definition or_default (x : option Z) (d : Z) : Z :=
  match or_int x (Some d) with
  | Some z => z
  | None => d
  end.

(** ** Chassis sheet *)

Module Chassis.

(** A row of [chassis.csv], under its header names and under the
    positional names [Column_N]. *)
Record row : Set := {
  Vendor : option string;        Column_1 : option string;
  Model : option string;         Column_2 : option string;
  Form_Factor : option string;   Column_5 : option string;
  Drive_Bay : option Z;          Column_6 : option Z;
  Drive_Type : value;            Column_7 : value;
  CPU_Sockets : value;           Column_4 : value;
  Memory_Slots : value;          Column_9 : value;
  Memory_Max : value;            Column_10 : value;
  PSU : value;                   Column_12 : value;
  Depth : value;                 Column_13 : value;
  Vendor_Link : value;           Column_14 : value;
  Notes : value;                 Column_15 : value;
  Preferred : value;             Column_0 : value
}.

(** The dictionary stored under [processed[vendor][model]]. *)
Record entry : Set := {
  model : option string;
  form_factor : option string;
  drive_bays : option Z;
  drive_types : value;
  cpu_sockets : value;
  memory_slots : value;
  memory_max : value;
  size_category : string;
  psu : value;
  depth : value;
  vendor_link : value;
  notes : value;
  preferred : value
}.

End Chassis.

(** Lines 144-148: the size category of a chassis. *)
Definition size_category (form_factor : option string) (drive_bays : option Z)
  : string :=
  if (bool_decide (form_factor = Some "1U"%string) && truthy_int drive_bays
      && match drive_bays with Some n => n <=? 8 | None => false end)%bool
  then "small"%string
  else if (bool_decide (form_factor = Some "2U"%string)
           || (truthy_int drive_bays
               && match drive_bays with Some n => 24 <=? n | None => false end))%bool
  then "large"%string
  else "medium"%string.

Definition chassis_entry (item : Chassis.row) : Chassis.entry :=
  let model := or_str (Chassis.Model item) (Chassis.Column_2 item) in
  let form_factor := or_str (Chassis.Form_Factor item) (Chassis.Column_5 item) in
  let drive_bays := or_int (Chassis.Drive_Bay item) (Chassis.Column_6 item) in
  {| Chassis.model := model;
     Chassis.form_factor := form_factor;
     Chassis.drive_bays := drive_bays;
     Chassis.drive_types := or_value (Chassis.Drive_Type item) (Chassis.Column_7 item);
     Chassis.cpu_sockets := or_value (Chassis.CPU_Sockets item) (Chassis.Column_4 item);
     Chassis.memory_slots := or_value (Chassis.Memory_Slots item) (Chassis.Column_9 item);
     Chassis.memory_max := or_value (Chassis.Memory_Max item) (Chassis.Column_10 item);
     Chassis.size_category := size_category form_factor drive_bays;
     Chassis.psu := or_value (Chassis.PSU item) (Chassis.Column_12 item);
     Chassis.depth := or_value (Chassis.Depth item) (Chassis.Column_13 item);
     Chassis.vendor_link := or_value (Chassis.Vendor_Link item) (Chassis.Column_14 item);
     Chassis.notes := or_value (Chassis.Notes item) (Chassis.Column_15 item);
     Chassis.preferred := or_value (Chassis.Preferred item) (Chassis.Column_0 item) |}.

(** The vendor and the model of a row the loop does not skip. *)
Definition chassis_names (item : Chassis.row) : option (string * string) :=
  let vendor := or_str (Chassis.Vendor item) (Chassis.Column_1 item) in
  let model := or_str (Chassis.Model item) (Chassis.Column_2 item) in
  if (negb (truthy_str vendor) || negb (truthy_str model))%bool then None
  else
    match vendor, model with
    | Some v, Some m => Some (v, m)
    | _, _ => None
    end.

(** One turn of the loop of [process_chassis_data]. *)
Definition chassis_step (processed : gmap string (gmap string Chassis.entry))
  (item : Chassis.row) : gmap string (gmap string Chassis.entry) :=
  match chassis_names item with
  | None => processed
  | Some (vendor, model) =>
      let processed :=
        if bool_decide (processed !! vendor = None)
        then <[vendor := ∅]> processed else processed in
      alter (fun models => <[model := chassis_entry item]> models) vendor processed
  end.

Definition process_chassis_data (chassis_data : list Chassis.row)
  : gmap string (gmap string Chassis.entry) :=
  fold_left chassis_step chassis_data ∅.

(** ** StorageDrive sheet *)

Module StorageDrive.

Record row : Set := {
  Vendor : option string;
  Model : option string;
  Mfg_Part_no : value;
  NVMe_Gen : value;
  Form_Factor : value;
  Interface : value;
  Technology : value;
  Capacity : option string;
  Seq_Read_128K : value;
  Seq_Write_128K : value;
  Random_Read_4K : value;
  Random_Write_4K : value;
  Power_Active_Idle : option string;
  Tech_Spec_Sheet : value;
  Preferred : option Z
}.

Record entry : Set := {
  vendor : option string;
  model : option string;
  part_number : value;
  nvme_gen : value;
  form_factor : value;
  interface : value;
  technology : value;
  capacity_tb : Q;
  capacity_raw : option string;
  seq_read_mbps : value;
  seq_write_mbps : value;
  random_read_iops : value;
  random_write_iops : value;
  power_active_w : Q;
  power_idle_w : Q;
  power_raw : option string;
  tech_spec_url : value;
  preferred : Z
}.

End StorageDrive.

Definition storage_body (processed : list StorageDrive.entry) (item : StorageDrive.row)
  : result (list StorageDrive.entry) :=
  let vendor := StorageDrive.Vendor item in
  let model := StorageDrive.Model item in
  if (negb (truthy_str vendor) || negb (truthy_str model))%bool then Ok processed
  else
    do capacity_tb <- parse_capacity (StorageDrive.Capacity item);
    do power_info <- parse_power (StorageDrive.Power_Active_Idle item);
    Ok (processed ++
        [ {| StorageDrive.vendor := vendor;
             StorageDrive.model := model;
             StorageDrive.part_number := StorageDrive.Mfg_Part_no item;
             StorageDrive.nvme_gen := StorageDrive.NVMe_Gen item;
             StorageDrive.form_factor := StorageDrive.Form_Factor item;
             StorageDrive.interface := StorageDrive.Interface item;
             StorageDrive.technology := StorageDrive.Technology item;
             StorageDrive.capacity_tb := capacity_tb;
             StorageDrive.capacity_raw := StorageDrive.Capacity item;
             StorageDrive.seq_read_mbps := StorageDrive.Seq_Read_128K item;
             StorageDrive.seq_write_mbps := StorageDrive.Seq_Write_128K item;
             StorageDrive.random_read_iops := StorageDrive.Random_Read_4K item;
             StorageDrive.random_write_iops := StorageDrive.Random_Write_4K item;
             StorageDrive.power_active_w := active power_info;
             StorageDrive.power_idle_w := idle power_info;
             StorageDrive.power_raw := StorageDrive.Power_Active_Idle item;
             StorageDrive.tech_spec_url := StorageDrive.Tech_Spec_Sheet item;
             StorageDrive.preferred := or_default (StorageDrive.Preferred item) 0 |} ]).

(** [lambda x: (x['preferred'] or 99, x['capacity_tb'])] *)
Definition storage_key (x : StorageDrive.entry) : Z * Q :=
  (or_default (Some (StorageDrive.preferred x)) 99, StorageDrive.capacity_tb x).

Definition process_storage_data (storage_data : list StorageDrive.row)
  : result (list StorageDrive.entry) :=
  do processed <- for_each storage_body storage_data [];
  Ok (sorted storage_key rank_float_lt processed).

(** ** CPUs sheet *)

Module Cpu.

Record row : Set := {
  Vendor : option string;
  Model : option string;
  Line : value;
  Cores : option Z;
  Threads : value;
  Boost_Clock : value;
  Base_Clock : value;
  L3_Cache : value;
  TDP : value;
  Memory : value;
  DDR_Channels : value;
  Max_DDR_Freq : value;
  Memory_Bandwidth : value;
  PCIe_Lanes : value;
  Sockets_2P_1P : value;
  Gen : value;
  Year : value;
  Codename : value;
  Architecture : value;
  Socket : value;
  Preferred : option Z
}.

Record entry : Set := {
  vendor : option string;
  model : option string;
  line : value;
  cores : option Z;
  threads : value;
  boost_clock : value;
  base_clock : value;
  l3_cache : value;
  tdp : value;
  memory_type : value;
  memory_channels : value;
  max_memory_freq : value;
  memory_bandwidth : value;
  pcie_lanes : value;
  socket_support : value;
  generation : value;
  year : value;
  codename : value;
  architecture : value;
  socket : value;
  preferred : Z
}.

End Cpu.

Definition cpu_body (processed : list Cpu.entry) (item : Cpu.row) : list Cpu.entry :=
  let vendor := Cpu.Vendor item in
  let model := Cpu.Model item in
  if (negb (truthy_str vendor) || negb (truthy_str model))%bool then processed
  else
    processed ++
    [ {| Cpu.vendor := vendor;
         Cpu.model := model;
         Cpu.line := Cpu.Line item;
         Cpu.cores := Cpu.Cores item;
         Cpu.threads := Cpu.Threads item;
         Cpu.boost_clock := Cpu.Boost_Clock item;
         Cpu.base_clock := Cpu.Base_Clock item;
         Cpu.l3_cache := Cpu.L3_Cache item;
         Cpu.tdp := Cpu.TDP item;
         Cpu.memory_type := Cpu.Memory item;
         Cpu.memory_channels := Cpu.DDR_Channels item;
         Cpu.max_memory_freq := Cpu.Max_DDR_Freq item;
         Cpu.memory_bandwidth := Cpu.Memory_Bandwidth item;
         Cpu.pcie_lanes := Cpu.PCIe_Lanes item;
         Cpu.socket_support := Cpu.Sockets_2P_1P item;
         Cpu.generation := Cpu.Gen item;
         Cpu.year := Cpu.Year item;
         Cpu.codename := Cpu.Codename item;
         Cpu.architecture := Cpu.Architecture item;
         Cpu.socket := Cpu.Socket item;
         Cpu.preferred := or_default (Cpu.Preferred item) 0 |} ].

(** [lambda x: (x['preferred'] or 99, -(x['cores'] or 0))] *)
Definition cpu_key (x : Cpu.entry) : Z * Z :=
  (or_default (Some (Cpu.preferred x)) 99, - or_default (Cpu.cores x) 0).

Definition process_cpu_data (cpu_data : list Cpu.row) : list Cpu.entry :=
  sorted cpu_key rank_int_lt (fold_left cpu_body cpu_data []).

(** ** Memory sheet *)

Module Memory.

Record row : Set := {
  Vendor : option string;
  Model : option string;
  Description : value;
  Size : option string;
  Speed : value;
  Profile : value;
  Preferred : option Z
}.

Record entry : Set := {
  vendor : option string;
  model : option string;
  description : value;
  size_gb : Z;
  size_raw : option string;
  speed : value;
  profile : value;
  preferred : Z
}.

End Memory.

(** Lines 254-260: the size in gigabytes, [0] when the cell does not read
    as ["<integer>GB"]. *)
Definition parse_size (size_str : option string) : Z :=
  match size_str with
  | Some s =>
      if (truthy_str size_str && Str.contains "GB" s)%bool then
        match Numeral.int (Str.replace "GB" "" s) with
        | Ok n => n
        | Raise _ => 0
        end
      else 0
  | None => 0
  end.

Definition memory_body (processed : list Memory.entry) (item : Memory.row)
  : list Memory.entry :=
  let vendor := Memory.Vendor item in
  let model := Memory.Model item in
  if (negb (truthy_str vendor) || negb (truthy_str model))%bool then processed
  else
    processed ++
    [ {| Memory.vendor := vendor;
         Memory.model := model;
         Memory.description := Memory.Description item;
         Memory.size_gb := parse_size (Memory.Size item);
         Memory.size_raw := Memory.Size item;
         Memory.speed := Memory.Speed item;
         Memory.profile := Memory.Profile item;
         Memory.preferred := or_default (Memory.Preferred item) 0 |} ].

(** [lambda x: (x['preferred'] or 99, x['size_gb'])] *)
Definition memory_key (x : Memory.entry) : Z * Z :=
  (or_default (Some (Memory.preferred x)) 99, Memory.size_gb x).

Definition process_memory_data (memory_data : list Memory.row) : list Memory.entry :=
  sorted memory_key rank_int_lt (fold_left memory_body memory_data []).

(** ** The consolidated document *)

(** A scheme of the erasure-coding catalogue. *)
Record scheme : Set := {
  data_blocks : Z;
  parity_blocks : Z;
  total_blocks : Z;
  efficiency : Q;
  min_drives : Z;
  fault_tolerance : Z
}.

Record erasure_coding_t : Set := {
  default_scheme : string;
  schemes : list (string * scheme)
}.

(** Lines 288-316.  [8/11] is Python's true division. *)
Definition erasure_coding : erasure_coding_t :=
  {| default_scheme := "EC 8:3";
     schemes :=
       [ ("EC 8:3"%string,
          {| data_blocks := 8; parity_blocks := 3; total_blocks := 11;
             efficiency := 8 / 11; min_drives := 11; fault_tolerance := 3 |});
         ("EC 8:2"%string,
          {| data_blocks := 8; parity_blocks := 2; total_blocks := 10;
             efficiency := 8 / 10; min_drives := 10; fault_tolerance := 2 |});
         ("EC 8:4"%string,
          {| data_blocks := 8; parity_blocks := 4; total_blocks := 12;
             efficiency := 8 / 12; min_drives := 12; fault_tolerance := 4 |}) ] |}.

Record size_descriptor : Set := {
  sd_description : string;
  typical_form_factor : string;
  drive_bay_range : Z * Z
}.

Definition size_categories : list (string * size_descriptor) :=
  [ ("small"%string,
     {| sd_description := "1U servers with 8-16 drive bays";
        typical_form_factor := "1U"; drive_bay_range := (8, 16) |});
    ("medium"%string,
     {| sd_description := "1U servers with 16-24 drive bays";
        typical_form_factor := "1U"; drive_bay_range := (16, 24) |});
    ("large"%string,
     {| sd_description := "2U servers with 24-32+ drive bays";
        typical_form_factor := "2U"; drive_bay_range := (24, 64) |}) ].

Record metadata_t : Set := {
  version : string;
  generated : string;
  md_description : string
}.

Record vendor_t : Type := {
  name : string;
  chassis : gmap string Chassis.entry;
  supported_sizes : gset string
}.

(** What [load_csv_data] hands over.  A boot-drive row is copied as it is. *)
Record csv_data : Type := {
  csv_chassis : list Chassis.row;
  csv_cpus : list Cpu.row;
  csv_memory : list Memory.row;
  csv_storage_drives : list StorageDrive.row;
  csv_boot_drives : list (list (string * value))
}.

Record hardware_specs_t : Type := {
  hs_metadata : metadata_t;
  hs_vendors : gmap string vendor_t;
  hs_storage_drives : list StorageDrive.entry;
  hs_cpus : list Cpu.entry;
  hs_memory : list Memory.entry;
  hs_boot_drives : list (list (string * value));
  hs_erasure_coding : erasure_coding_t;
  hs_size_categories : list (string * size_descriptor)
}.

(** [create_hardware_json(data)]; [now] is the time stamp of the run. *)
Definition create_hardware_json (now : string) (data : csv_data)
  : result hardware_specs_t :=
  do storage_drives <- process_storage_data (csv_storage_drives data);
  let cpus := process_cpu_data (csv_cpus data) in
  let memory := process_memory_data (csv_memory data) in
  let chassis_data := process_chassis_data (csv_chassis data) in
  Ok {| hs_metadata :=
          {| version := "1.0"; generated := now;
             md_description := "MinIO Hardware Calculator - Hardware Specifications" |};
        hs_vendors :=
          map_imap (fun vendor models =>
            Some {| name := vendor;
                    chassis := models;
                    supported_sizes :=
                      list_to_set (Chassis.size_category <$> (map_to_list models).*2) |})
            chassis_data;
        hs_storage_drives := storage_drives;
        hs_cpus := cpus;
        hs_memory := memory;
        hs_boot_drives := csv_boot_drives data;
        hs_erasure_coding := erasure_coding;
        hs_size_categories := size_categories |}.

(** ** [validate_data.py]: the document as the validator reads it

    A key of a JSON object is absent, or holds [null], or holds a value of
    the shape the validator expects. *)

Inductive field (A : Type) : Type :=
  | Absent
  | Null
  | Val (a : A).
Arguments Absent {A}.
Arguments Null {A}.
Arguments Val {A} a.

(** [d.get(k, default)]: [None] is Python's [None]. *)
Definition get {A} (f : field A) (default : A) : option A :=
  match f with
  | Absent => Some default
  | Null => None
  | Val a => Some a
  end.

(** [d.get(k)] *)
Definition get_none {A} (f : field A) : option A :=
  match f with
  | Val a => Some a
  | _ => None
  end.

(** [k not in d or d[k] is None] *)
Definition missing {A} (f : field A) : bool :=
  match f with
  | Val _ => false
  | _ => true
  end.

(** [x > bound] for a float or [None]; ordering [None] raises. *)
Definition gt (x : option Q) (bound : Q) : result bool :=
  match x with
  | Some q => Ok (Qlt_bool bound q)
  | None => Raise TypeError
  end.

Module Doc.

Record drive : Set := {
  vendor : field string;
  model : field string;
  capacity_tb : field Q;
  seq_read_mbps : field Q;
  power_active_w : field Q;
  preferred : option Z       (* [None]: no such key *)
}.

Record cpu : Set := {
  cpu_vendor : field string;
  cpu_model : field string;
  cores : field Z;
  cpu_preferred : option Z
}.

Record vendor_entry : Set := {
  chassis : option (list string);         (* the model names, when the key is there *)
  supported_sizes : option (list string)
}.

Record scheme : Set := {
  data_blocks : option Z;
  parity_blocks : option Z;
  efficiency : option Q
}.

Record erasure_coding : Set := {
  schemes : option (list (string * scheme))
}.

Record document : Set := {
  metadata : option (list string);        (* the keys of the metadata object *)
  vendors : option (list (string * vendor_entry));
  storage_drives : option (list drive);
  cpus : option (list cpu);
  memory : option nat;                    (* the number of memory records *)
  erasure_coding_ : option erasure_coding
}.

End Doc.

(** The lines the validator appends to its lists, one constructor for each
    format string; the arguments are the values it interpolates. *)
Inductive message : Set :=
  | Missing_required_key (key : string)
  | Missing_metadata_key (key : string)
  | No_vendor_data_found
  | Vendor_missing_chassis_data (vendor_name : string)
  | Vendor_missing_supported_sizes (vendor_name : string)
  | Vendor_has_no_chassis_models (vendor_name : string)
  | No_storage_drive_data_found
  | Drive_missing_required_field (i : nat) (field_name : string)
  | Drive_unusually_high_capacity (model : option string) (capacity_tb : option Q)
  | Drive_unusually_high_read_speed (model : option string) (seq_read_mbps : option Q)
  | No_CPU_data_found
  | CPU_missing_required_field (i : nat) (field_name : string)
  | CPU_unusually_high_core_count (model : option string) (cores : Z)
  | No_erasure_coding_schemes_found
  | Missing_recommended_scheme (scheme_name : string)
  | Efficiency_mismatch (scheme_name : string) (expected actual : Q)
  | Drive_vendors_not_in_chassis_vendors (missing_vendors : list string)
  | Only_preferred_drives_available (n : nat)
  | Only_preferred_CPUs_available (n : nat)
  | JSON_file_is_large (size_mb : Q)
  | JSON_file_is_small (size_mb : Q)
  | JSON_file_not_found_in_public_data.

(** The pair [errors, warnings] every check returns. *)
Definition findings : Set := list message * list message.

Definition is_present {A} (o : option A) : bool :=
  match o with Some _ => true | None => false end.

Definition validate_json_structure (data : Doc.document) : findings :=
  let required_keys :=
    [ ("metadata"%string, is_present (Doc.metadata data));
      ("vendors"%string, is_present (Doc.vendors data));
      ("storage_drives"%string, is_present (Doc.storage_drives data));
      ("cpus"%string, is_present (Doc.cpus data));
      ("memory"%string, is_present (Doc.memory data));
      ("erasure_coding"%string, is_present (Doc.erasure_coding_ data)) ] in
  let errors :=
    fold_left (fun (errors : list message) '((key, present) : string * bool) =>
                 if present then errors else errors ++ [Missing_required_key key])
      required_keys [] in
  let warnings :=
    match Doc.metadata data with
    | Some keys =>
        fold_left (fun (warnings : list message) (key : string) =>
                     if existsb (String.eqb key) keys then warnings
                     else warnings ++ [Missing_metadata_key key])
          ["version"; "generated"; "description"]%string []
    | None => []
    end in
  (errors, warnings).

(** [validate_vendors(data.get('vendors', {}))] *)
Definition validate_vendors (vendors_data : list (string * Doc.vendor_entry)) : findings :=
  match vendors_data with
  | [] => ([No_vendor_data_found], [])
  | _ =>
      fold_left
        (fun '((errors, warnings) : findings) '((vendor_name, vendor_data) : string * Doc.vendor_entry) =>
           match Doc.chassis vendor_data with
           | None => (errors ++ [Vendor_missing_chassis_data vendor_name], warnings)
           | Some models =>
               let warnings :=
                 if is_present (Doc.supported_sizes vendor_data) then warnings
                 else warnings ++ [Vendor_missing_supported_sizes vendor_name] in
               let chassis_count := List.length models in
               if (chassis_count =? 0)%nat
               then (errors, warnings ++ [Vendor_has_no_chassis_models vendor_name])
               else (errors, warnings)
           end)
        vendors_data ([], [])
  end.

(** [drive.get('preferred', 0) <= 2] *)
Definition is_preferred (preferred : option Z) : bool :=
  match preferred with
  | Some rank => rank <=? 2
  | None => 0 <=? 2
  end.

(** The state of the loop over the drives: the index of [enumerate], the
    two lists and [preferred_drives]. *)
Record drives_state : Set := {
  ds_i : nat;
  ds_errors : list message;
  ds_warnings : list message;
  ds_preferred : list Doc.drive
}.

Definition drive_body (st : drives_state) (drive : Doc.drive) : result drives_state :=
  let i := ds_i st in
  let required_fields :=
    [ ("vendor"%string, missing (Doc.vendor drive));
      ("model"%string, missing (Doc.model drive));
      ("capacity_tb"%string, missing (Doc.capacity_tb drive));
      ("seq_read_mbps"%string, missing (Doc.seq_read_mbps drive));
      ("power_active_w"%string, missing (Doc.power_active_w drive)) ] in
  let errors :=
    fold_left (fun (errors : list message) '((field_name, absent) : string * bool) =>
                 if absent then errors ++ [Drive_missing_required_field i field_name]
                 else errors)
      required_fields (ds_errors st) in
  let preferred_drives :=
    if is_preferred (Doc.preferred drive) then ds_preferred st ++ [drive]
    else ds_preferred st in
  let model := get (Doc.model drive) "unknown"%string in
  do high_capacity <- gt (get (Doc.capacity_tb drive) 0%Q) 100%Q;
  let warnings :=
    if high_capacity
    then ds_warnings st ++ [Drive_unusually_high_capacity model (get_none (Doc.capacity_tb drive))]
    else ds_warnings st in
  do high_speed <- gt (get (Doc.seq_read_mbps drive) 0%Q) 10000%Q;
  let warnings :=
    if high_speed
    then warnings ++ [Drive_unusually_high_read_speed model (get_none (Doc.seq_read_mbps drive))]
    else warnings in
  Ok {| ds_i := S i; ds_errors := errors; ds_warnings := warnings;
        ds_preferred := preferred_drives |}.

(** [validate_storage_drives(data.get('storage_drives', []))] *)
Definition validate_storage_drives (drives_data : list Doc.drive) : result findings :=
  match drives_data with
  | [] => Ok ([No_storage_drive_data_found], [])
  | _ =>
      do st <- for_each drive_body drives_data
                 {| ds_i := 0; ds_errors := []; ds_warnings := []; ds_preferred := [] |};
      Ok (ds_errors st, ds_warnings st)
  end.

Record cpus_state : Set := {
  cs_i : nat;
  cs_errors : list message;
  cs_warnings : list message;
  cs_preferred : list Doc.cpu
}.

Definition cpu_check (st : cpus_state) (cpu : Doc.cpu) : cpus_state :=
  let i := cs_i st in
  let required_fields :=
    [ ("vendor"%string, missing (Doc.cpu_vendor cpu));
      ("model"%string, missing (Doc.cpu_model cpu));
      ("cores"%string, missing (Doc.cores cpu)) ] in
  let errors :=
    fold_left (fun (errors : list message) '((field_name, absent) : string * bool) =>
                 if absent then errors ++ [CPU_missing_required_field i field_name]
                 else errors)
      required_fields (cs_errors st) in
  let preferred_cpus :=
    if is_preferred (Doc.cpu_preferred cpu) then cs_preferred st ++ [cpu]
    else cs_preferred st in
  let cores := get (Doc.cores cpu) 0 in
  let warnings :=
    match cores with
    | Some n =>
        if (negb (n =? 0) && (128 <? n))%bool
        then cs_warnings st
             ++ [CPU_unusually_high_core_count (get (Doc.cpu_model cpu) "unknown"%string) n]
        else cs_warnings st
    | None => cs_warnings st
    end in
  {| cs_i := S i; cs_errors := errors; cs_warnings := warnings;
     cs_preferred := preferred_cpus |}.

(** [validate_cpus(data.get('cpus', []))] *)
Definition validate_cpus (cpus_data : list Doc.cpu) : findings :=
  match cpus_data with
  | [] => ([No_CPU_data_found], [])
  | _ =>
      let st := fold_left cpu_check cpus_data
                  {| cs_i := 0; cs_errors := []; cs_warnings := []; cs_preferred := [] |} in
      (cs_errors st, cs_warnings st)
  end.

(** [d[k]] *)
Definition item {A} (o : option A) : result A :=
  match o with
  | Some a => Ok a
  | None => Raise KeyError
  end.

(** [a / b] on integers *)
Definition true_div (a b : Z) : result Q :=
  if b =? 0 then Raise ZeroDivisionError else Ok (inject_Z a / inject_Z b)%Q.

(** [schemes[scheme_name]], when the name is a key *)
Fixpoint lookup_scheme (scheme_name : string) (schemes : list (string * Doc.scheme))
  : option Doc.scheme :=
  match schemes with
  | [] => None
  | (k, s) :: rest => if String.eqb k scheme_name then Some s else lookup_scheme scheme_name rest
  end.

Definition tolerance : Q := 1 # 1000.

Definition scheme_body (schemes : list (string * Doc.scheme)) (st : findings)
  (scheme_name : string) : result findings :=
  let '(errors, warnings) := st in
  match lookup_scheme scheme_name schemes with
  | None => Ok (errors, warnings ++ [Missing_recommended_scheme scheme_name])
  | Some scheme =>
      do data_blocks <- item (Doc.data_blocks scheme);
      do data_blocks' <- item (Doc.data_blocks scheme);
      do parity_blocks <- item (Doc.parity_blocks scheme);
      do expected_efficiency <- true_div data_blocks (data_blocks' + parity_blocks);
      let actual_efficiency :=
        match Doc.efficiency scheme with Some e => e | None => 0%Q end in
      if Qlt_bool tolerance (Qabs (expected_efficiency - actual_efficiency))
      then Ok (errors ++ [Efficiency_mismatch scheme_name expected_efficiency actual_efficiency],
               warnings)
      else Ok (errors, warnings)
  end.

Definition required_schemes : list string := ["EC 8:3"; "EC 8:2"; "EC 8:4"]%string.

(** [validate_erasure_coding(data.get('erasure_coding', {}))]; an object
    without keys is [{| schemes := None |}]. *)
Definition validate_erasure_coding (ec_data : Doc.erasure_coding) : result findings :=
  match Doc.schemes ec_data with
  | None => Ok ([No_erasure_coding_schemes_found], [])
  | Some schemes => for_each (scheme_body schemes) required_schemes ([], [])
  end.

Definition preferred_drives (drives : list Doc.drive) : list Doc.drive :=
  List.filter (fun d => is_preferred (Doc.preferred d)) drives.

Definition preferred_cpus (cpus : list Doc.cpu) : list Doc.cpu :=
  List.filter (fun c => is_preferred (Doc.cpu_preferred c)) cpus.

Definition validate_consistency (data : Doc.document) : findings :=
  let vendors := match Doc.vendors data with Some v => v | None => [] end in
  let storage_drives := match Doc.storage_drives data with Some d => d | None => [] end in
  let cpus := match Doc.cpus data with Some c => c | None => [] end in
  let all_vendors : gset string := list_to_set (vendors.*1) in
  let drive_vendors : gset string :=
    fold_left (fun (drive_vendors : gset string) (drive : Doc.drive) =>
                 let vendor := get_none (Doc.vendor drive) in
                 match vendor with
                 | Some v => if truthy_str vendor then {[ v ]} ∪ drive_vendors
                             else drive_vendors
                 | None => drive_vendors
                 end)
      storage_drives ∅ in
  let missing_vendors := drive_vendors ∖ all_vendors in
  let warnings :=
    if bool_decide (missing_vendors = ∅) then []
    else [Drive_vendors_not_in_chassis_vendors (elements missing_vendors)] in
  let n_drives := List.length (preferred_drives storage_drives) in
  let warnings :=
    if (n_drives <? 3)%nat then warnings ++ [Only_preferred_drives_available n_drives]
    else warnings in
  let n_cpus := List.length (preferred_cpus cpus) in
  let warnings :=
    if (n_cpus <? 2)%nat then warnings ++ [Only_preferred_CPUs_available n_cpus]
    else warnings in
  ([], warnings).

(** ** Files *)

(** A file: its size in bytes and what [json.load] makes of its text,
    [None] when it raises. *)
Record file : Set := {
  getsize : Z;
  json_load : option Doc.document
}.

(** The files by path; [None]: [os.path.exists] is false. *)
Definition filesystem : Set := string -> option file.

Definition public_json : string := "public/data/hardware_specs.json".
Definition fallback_json : string := "data/hardware_specs.json".

Definition check_file_sizes (fs : filesystem) : list message :=
  let json_file := public_json in
  match fs json_file with
  | Some f =>
      let size_mb := (inject_Z (getsize f) / inject_Z (1024 * 1024))%Q in
      if Qlt_bool 5 size_mb then [JSON_file_is_large size_mb]
      else if Qlt_bool size_mb (1 # 10) then [JSON_file_is_small size_mb]
      else []
  | None => [JSON_file_not_found_in_public_data]
  end.

(** ** [main] of the validator *)

(** How [main] ends: with a bare [return] after one of the two fatal
    notices, or with the report and [return len(all_errors) == 0]. *)
Inductive finish : Set :=
  | Not_found (json_file : string)
  | Load_failed (json_file : string)
  | Reported (all_errors all_warnings : list message) (success : bool).

(** The value [main] returns. *)
Definition returned (f : finish) : option bool :=
  match f with
  | Not_found _ => None
  | Load_failed _ => None
  | Reported _ _ success => Some success
  end.

Definition extend (all : findings) (found : findings) : findings :=
  (fst all ++ fst found, snd all ++ snd found).

Definition main (fs : filesystem) : result finish :=
  let json_file :=
    if is_present (fs public_json) then public_json else fallback_json in
  match fs json_file with
  | None => Ok (Not_found json_file)
  | Some f =>
      match json_load f with
      | None => Ok (Load_failed json_file)
      | Some data =>
          let all : findings := ([], []) in
          let all := extend all (validate_json_structure data) in
          let all := extend all
            (validate_vendors (match Doc.vendors data with Some v => v | None => [] end)) in
          do found <- validate_storage_drives
                        (match Doc.storage_drives data with Some d => d | None => [] end);
          let all := extend all found in
          let all := extend all
            (validate_cpus (match Doc.cpus data with Some c => c | None => [] end)) in
          do found <- validate_erasure_coding
                        (match Doc.erasure_coding_ data with
                         | Some ec => ec
                         | None => {| Doc.schemes := None |}
                         end);
          let all := extend all found in
          let all := extend all (validate_consistency data) in
          let warnings := check_file_sizes fs in
          let all := (fst all, snd all ++ warnings) in
          Ok (Reported (fst all) (snd all) (List.length (fst all) =? 0)%nat)
      end
  end.

(** [success = main(); exit(0 if success else 1)].  An exception that
    nothing catches ends the process with status 1. *)
Definition exit_code (r : result finish) : Z :=
  match r with
  | Ok f =>
      match returned f with
      | Some true => 0
      | _ => 1
      end
  | Raise _ => 1
  end.

(** * Vocabulary of the properties *)



Definition named (vendor model : option string) : Prop :=
  vendor <> None /\ model <> None.



(** The rank a key carries: an unset rank, [0], counts as [99]. *)
Definition rank (preferred : Z) : Z := if preferred =? 0 then 99 else preferred.



(** Rows for the examples: only the cells the code looks at are filled. *)
Definition drive_row (vendor model capacity : option string) (preferred : option Z)
  : StorageDrive.row :=
  {| StorageDrive.Vendor := vendor; StorageDrive.Model := model;
     StorageDrive.Mfg_Part_no := VNone; StorageDrive.NVMe_Gen := VNone;
     StorageDrive.Form_Factor := VNone; StorageDrive.Interface := VNone;
     StorageDrive.Technology := VNone; StorageDrive.Capacity := capacity;
     StorageDrive.Seq_Read_128K := VNone; StorageDrive.Seq_Write_128K := VNone;
     StorageDrive.Random_Read_4K := VNone; StorageDrive.Random_Write_4K := VNone;
     StorageDrive.Power_Active_Idle := None; StorageDrive.Tech_Spec_Sheet := VNone;
     StorageDrive.Preferred := preferred |}.

Definition cpu_row (vendor model : option string) (cores preferred : option Z)
  : Cpu.row :=
  {| Cpu.Vendor := vendor; Cpu.Model := model; Cpu.Line := VNone;
     Cpu.Cores := cores; Cpu.Threads := VNone; Cpu.Boost_Clock := VNone;
     Cpu.Base_Clock := VNone; Cpu.L3_Cache := VNone; Cpu.TDP := VNone;
     Cpu.Memory := VNone; Cpu.DDR_Channels := VNone; Cpu.Max_DDR_Freq := VNone;
     Cpu.Memory_Bandwidth := VNone; Cpu.PCIe_Lanes := VNone;
     Cpu.Sockets_2P_1P := VNone; Cpu.Gen := VNone; Cpu.Year := VNone;
     Cpu.Codename := VNone; Cpu.Architecture := VNone; Cpu.Socket := VNone;
     Cpu.Preferred := preferred |}.

Definition memory_row (vendor model size : option string) (preferred : option Z)
  : Memory.row :=
  {| Memory.Vendor := vendor; Memory.Model := model; Memory.Description := VNone;
     Memory.Size := size; Memory.Speed := VNone; Memory.Profile := VNone;
     Memory.Preferred := preferred |}.





(** The drive-bay count is there, is not 0 and is at most 8, in a 1U case. *)
Definition small_case (form_factor : option string) (drive_bays : option Z) : Prop :=
  form_factor = Some "1U" /\ exists n, drive_bays = Some n /\ n <> 0 /\ n <= 8.

Definition large_case (form_factor : option string) (drive_bays : option Z) : Prop :=
  form_factor = Some "2U" \/ exists n, drive_bays = Some n /\ 24 <= n.

Definition to_be_decided : StorageDrive.row :=
  drive_row (Some "Micron") (Some "7450") (Some "TBD") None.

(** The catalogue as the validator reads it back from the document. *)
Definition doc_scheme (s : scheme) : Doc.scheme :=
  {| Doc.data_blocks := Some (data_blocks s);
     Doc.parity_blocks := Some (parity_blocks s);
     Doc.efficiency := Some (efficiency s) |}.

Definition doc_erasure_coding (ec : erasure_coding_t) : Doc.erasure_coding :=
  {| Doc.schemes := Some (List.map (fun '(n, s) => (n, doc_scheme s)) (schemes ec)) |}.

(** The quotient the validator recomputes and the value it reads. *)
Definition expected_efficiency (d p : Z) : Q := (inject_Z d / inject_Z (d + p))%Q.

Definition actual_efficiency (s : Doc.scheme) : Q :=
  match Doc.efficiency s with Some e => e | None => 0%Q end.




(** The path [main] settles on. *)
Definition json_file (fs : filesystem) : string :=
  if is_present (fs public_json) then public_json else fallback_json.

Definition vendors_of (data : Doc.document) : list (string * Doc.vendor_entry) :=
  match Doc.vendors data with Some v => v | None => [] end.

Definition drives_of (data : Doc.document) : list Doc.drive :=
  match Doc.storage_drives data with Some d => d | None => [] end.

Definition cpus_of (data : Doc.document) : list Doc.cpu :=
  match Doc.cpus data with Some c => c | None => [] end.

Definition erasure_coding_of (data : Doc.document) : Doc.erasure_coding :=
  match Doc.erasure_coding_ data with
  | Some ec => ec
  | None => {| Doc.schemes := None |}
  end.

(** A run without findings of the first kind: it went through every check
    and its list of errors is empty. *)
Definition no_errors_found (r : result finish) : Prop :=
  exists warnings, r = Ok (Reported [] warnings true).

(** A document that passes, in a file of 2000 bytes. *)
Definition sample_drive (vendor model : string) (preferred : option Z) : Doc.drive :=
  {| Doc.vendor := Val vendor; Doc.model := Val model;
     Doc.capacity_tb := Val (384 # 25); Doc.seq_read_mbps := Val 6800%Q;
     Doc.power_active_w := Val 15%Q; Doc.preferred := preferred |}.

Definition sample_cpu (model : string) (cores : Z) : Doc.cpu :=
  {| Doc.cpu_vendor := Val "AMD"; Doc.cpu_model := Val model;
     Doc.cores := Val cores; Doc.cpu_preferred := Some 1 |}.

Definition sample_document : Doc.document :=
  {| Doc.metadata := Some ["version"; "generated"; "description"];
     Doc.vendors :=
       Some [("Micron", {| Doc.chassis := Some ["SYS-1"];
                           Doc.supported_sizes := Some ["small"] |})];
     Doc.storage_drives :=
       Some [sample_drive "Micron" "7450" (Some 0);
             sample_drive "Micron" "7400" (Some 1);
             sample_drive "Micron" "9400" None];
     Doc.cpus := Some [sample_cpu "9354" 32; sample_cpu "9554" 64];
     Doc.memory := Some 1%nat;
     Doc.erasure_coding_ := Some (doc_erasure_coding erasure_coding) |}.

Definition holding (path : string) (f : file) : filesystem :=
  fun p => if String.eqb p path then Some f else None.

Definition sample_files : filesystem :=
  holding public_json {| getsize := 2000; json_load := Some sample_document |}.

Definition unparsable_files : filesystem :=
  holding public_json {| getsize := 2000; json_load := None |}.

Definition megabytes (bytes : Z) : Q := (inject_Z bytes / inject_Z (1024 * 1024))%Q.

(** The list the check is run on is empty, and [m] is what it then says. *)
Definition lacks (data : Doc.document) (m : message) : Prop :=
  (m = No_vendor_data_found /\ vendors_of data = []) \/
  (m = No_storage_drive_data_found /\ drives_of data = []) \/
  (m = No_CPU_data_found /\ cpus_of data = []).

Definition without_vendors : Doc.document :=
  {| Doc.metadata := Doc.metadata sample_document;
     Doc.vendors := Some [];
     Doc.storage_drives := Doc.storage_drives sample_document;
     Doc.cpus := Doc.cpus sample_document;
     Doc.memory := Doc.memory sample_document;
     Doc.erasure_coding_ := Doc.erasure_coding_ sample_document |}.

Definition files_without_vendors : filesystem :=
  holding fallback_json {| getsize := 2000; json_load := Some without_vendors |}.

(** [processed[vendor][model]], when both keys are there. *)
Definition entry_at (processed : gmap string (gmap string Chassis.entry))
  (vendor model : string) : option Chassis.entry :=
  match processed !! vendor with
  | Some models => models !! model
  | None => None
  end.

(** The number of entries of the nested map. *)
Definition chassis_count (processed : gmap string (gmap string Chassis.entry)) : nat :=
  map_fold (fun _ (models : gmap string Chassis.entry) n => (size models + n)%nat)
    0%nat processed.

(** The rows the loop does not skip. *)
Definition valid_rows (chassis_data : list Chassis.row) : list Chassis.row :=
  List.filter (fun item => is_present (chassis_names item)) chassis_data.

(** The last row of the list that names [vendor] and [model]. *)
Fixpoint last_row (vendor model : string) (chassis_data : list Chassis.row)
  : option Chassis.row :=
  match chassis_data with
  | [] => None
  | item :: rest =>
      match last_row vendor model rest with
      | Some r => Some r
      | None =>
          if bool_decide (chassis_names item = Some (vendor, model))
          then Some item else None
      end
  end.

Definition chassis_row (vendor model form_factor : option string) (drive_bay : option Z)
  : Chassis.row :=
  {| Chassis.Vendor := vendor; Chassis.Column_1 := None;
     Chassis.Model := model; Chassis.Column_2 := None;
     Chassis.Form_Factor := form_factor; Chassis.Column_5 := None;
     Chassis.Drive_Bay := drive_bay; Chassis.Column_6 := None;
     Chassis.Drive_Type := VNone; Chassis.Column_7 := VNone;
     Chassis.CPU_Sockets := VNone; Chassis.Column_4 := VNone;
     Chassis.Memory_Slots := VNone; Chassis.Column_9 := VNone;
     Chassis.Memory_Max := VNone; Chassis.Column_10 := VNone;
     Chassis.PSU := VNone; Chassis.Column_12 := VNone;
     Chassis.Depth := VNone; Chassis.Column_13 := VNone;
     Chassis.Vendor_Link := VNone; Chassis.Column_14 := VNone;
     Chassis.Notes := VNone; Chassis.Column_15 := VNone;
     Chassis.Preferred := VNone; Chassis.Column_0 := VNone |}.

Definition first_listing : Chassis.row :=
  chassis_row (Some "Supermicro") (Some "ASG-1115S") (Some "1U") (Some 8).

Definition second_listing : Chassis.row :=
  chassis_row (Some "Supermicro") (Some "ASG-1115S") (Some "1U") (Some 16).

(** ** Vocabulary of the further properties *)

(** The character [c] does not occur in [s]. *)
Fixpoint lacks_char (c : ascii) (s : string) : bool :=
  match s with
  | EmptyString => true
  | String c' s' => negb (Ascii.eqb c' c) && lacks_char c s'
  end.


Definition no_power : power_info := {| active := 0; idle := 0 |}.













(** The required fields a drive, respectively a CPU, lacks, in the order
    in which the validator asks for them. *)
Definition lacking (fields : list (string * bool)) : list string :=
  List.map fst (List.filter snd fields).

Definition drive_fields (drive : Doc.drive) : list (string * bool) :=
  [ ("vendor"%string, missing (Doc.vendor drive));
    ("model"%string, missing (Doc.model drive));
    ("capacity_tb"%string, missing (Doc.capacity_tb drive));
    ("seq_read_mbps"%string, missing (Doc.seq_read_mbps drive));
    ("power_active_w"%string, missing (Doc.power_active_w drive)) ].

Definition cpu_fields (cpu : Doc.cpu) : list (string * bool) :=
  [ ("vendor"%string, missing (Doc.cpu_vendor cpu));
    ("model"%string, missing (Doc.cpu_model cpu));
    ("cores"%string, missing (Doc.cores cpu)) ].


Definition unorderableb (drive : Doc.drive) : bool :=
  match Doc.capacity_tb drive, Doc.seq_read_mbps drive with
  | Null, _ => true
  | _, Null => true
  | _, _ => false
  end.

(** The warnings one drive gives rise to. *)
Definition drive_warnings (drive : Doc.drive) : list message :=
  let model := get (Doc.model drive) "unknown"%string in
  (match Doc.capacity_tb drive with
   | Val q => if Qlt_bool 100 q then [Drive_unusually_high_capacity model (Some q)] else []
   | _ => []
   end)
  ++
  (match Doc.seq_read_mbps drive with
   | Val q => if Qlt_bool 10000 q then [Drive_unusually_high_read_speed model (Some q)] else []
   | _ => []
   end).

(** The errors of the drives from the index [i] on. *)
Fixpoint drive_errors (i : nat) (drives : list Doc.drive) : list message :=
  match drives with
  | [] => []
  | d :: rest =>
      List.map (Drive_missing_required_field i) (lacking (drive_fields d))
      ++ drive_errors (S i) rest
  end.

Fixpoint cpu_errors (i : nat) (cpus : list Doc.cpu) : list message :=
  match cpus with
  | [] => []
  | c :: rest =>
      List.map (CPU_missing_required_field i) (lacking (cpu_fields c))
      ++ cpu_errors (S i) rest
  end.

Definition cpu_warnings (cpu : Doc.cpu) : list message :=
  match Doc.cores cpu with
  | Val n =>
      if 128 <? n
      then [CPU_unusually_high_core_count (get (Doc.cpu_model cpu) "unknown"%string) n]
      else []
  | _ => []
  end.

(** One turn of the loop of [validate_vendors]. *)
Definition vendor_errors (v : string * Doc.vendor_entry) : list message :=
  match Doc.chassis (snd v) with
  | None => [Vendor_missing_chassis_data (fst v)]
  | Some _ => []
  end.

Definition vendor_warnings (v : string * Doc.vendor_entry) : list message :=
  match Doc.chassis (snd v) with
  | None => []
  | Some models =>
      (if is_present (Doc.supported_sizes (snd v)) then []
       else [Vendor_missing_supported_sizes (fst v)])
      ++ (match models with
          | [] => [Vendor_has_no_chassis_models (fst v)]
          | _ => []
          end)
  end.

Definition metadata_keys : list string := ["version"; "generated"; "description"].




(** The set [drive_vendors - all_vendors] of [validate_consistency]. *)
Definition missing_vendors_of (data : Doc.document) : gset string :=
  fold_left (fun (drive_vendors : gset string) (drive : Doc.drive) =>
               let vendor := get_none (Doc.vendor drive) in
               match vendor with
               | Some v => if truthy_str vendor then {[ v ]} ∪ drive_vendors
                           else drive_vendors
               | None => drive_vendors
               end)
    (drives_of data) ∅
  ∖ list_to_set ((vendors_of data).*1).

(** ** The document on its way from the converter to the validator

    What [json.load] returns of what [json.dump] wrote: the keys as they
    are, [None] as [null].  A read speed that is a text has no place in
    the document of the validator. *)

Definition doc_text (o : option string) : field string :=
  match o with
  | Some s => Val s
  | None => Null
  end.

Definition doc_number (v : value) : option (field Q) :=
  match v with
  | VNone => Some Null
  | VInt z => Some (Val (inject_Z z))
  | VStr _ => None
  end.

Definition doc_drive (e : StorageDrive.entry) : option Doc.drive :=
  match doc_number (StorageDrive.seq_read_mbps e) with
  | Some speed =>
      Some {| Doc.vendor := doc_text (StorageDrive.vendor e);
              Doc.model := doc_text (StorageDrive.model e);
              Doc.capacity_tb := Val (StorageDrive.capacity_tb e);
              Doc.seq_read_mbps := speed;
              Doc.power_active_w := Val (StorageDrive.power_active_w e);
              Doc.preferred := Some (StorageDrive.preferred e) |}
  | None => None
  end.

Definition doc_cpu (e : Cpu.entry) : Doc.cpu :=
  {| Doc.cpu_vendor := doc_text (Cpu.vendor e);
     Doc.cpu_model := doc_text (Cpu.model e);
     Doc.cores := match Cpu.cores e with Some n => Val n | None => Null end;
     Doc.cpu_preferred := Some (Cpu.preferred e) |}.

Definition doc_vendor (v : string * vendor_t) : string * Doc.vendor_entry :=
  (fst v,
   {| Doc.chassis := Some (List.map fst (map_to_list (chassis (snd v))));
      Doc.supported_sizes := Some (elements (supported_sizes (snd v))) |}).

Definition to_document (hs : hardware_specs_t) : option Doc.document :=
  match mapM doc_drive (hs_storage_drives hs) with
  | Some drives =>
      Some {| Doc.metadata := Some metadata_keys;
              Doc.vendors := Some (List.map doc_vendor (map_to_list (hs_vendors hs)));
              Doc.storage_drives := Some drives;
              Doc.cpus := Some (List.map doc_cpu (hs_cpus hs));
              Doc.memory := Some (List.length (hs_memory hs));
              Doc.erasure_coding_ := Some (doc_erasure_coding (hs_erasure_coding hs)) |}
  | None => None
  end.

(** The converter found a chassis, a drive with its read speed and a CPU
    with its cores. *)
Definition stocked (hs : hardware_specs_t) : Prop :=
  hs_vendors hs <> ∅ /\
  hs_storage_drives hs <> [] /\
  Forall (fun e => StorageDrive.seq_read_mbps e <> VNone) (hs_storage_drives hs) /\
  hs_cpus hs <> [] /\
  Forall (fun e => Cpu.cores e <> None) (hs_cpus hs).

(** ** [convert_to_json.py]: the sheets of the workbook

    A sheet as pandas hands it over: the names of its columns and its
    rows, a cell being a value or null ([NaN], [None]).  Every row has one
    cell for each column.  What a cell holds plays no part here. *)

Record frame (A : Type) : Type := {
  columns : list string;
  rows : list (list (option A))
}.
Arguments columns {A} _.
Arguments rows {A} _.

Definition isnull {A} (cell : option A) : bool :=
  match cell with
  | None => true
  | Some _ => false
  end.

(** The cells of the column [j]. *)
Definition column {A} (df : frame A) (j : nat) : list (option A) :=
  List.map (fun r => nth j r None) (rows df).

Definition nulls {A} (cells : list (option A)) : nat :=
  List.length (List.filter isnull cells).

(** [df.isnull().mean() < 0.9] for the column [j]: fewer than nine cells
    in ten are null.  The mean of no cell at all is [NaN], which is below
    nothing. *)
Definition mostly_filled {A} (df : frame A) (j : nat) : bool :=
  (10 * nulls (column df j) <? 9 * List.length (rows df))%nat.

(** The entries of [l] at the places where [mask] is true. *)
Fixpoint select {B} (mask : list bool) (l : list B) : list B :=
  match mask, l with
  | keep :: mask', x :: l' => if keep then x :: select mask' l' else select mask' l'
  | _, _ => []
  end.

Definition column_mask {A} (df : frame A) : list bool :=
  List.map (mostly_filled df) (seq 0 (List.length (columns df))).

(** [df.loc[:, mask]] *)
Definition loc_columns {A} (mask : list bool) (df : frame A) : frame A :=
  {| columns := select mask (columns df);
     rows := List.map (select mask) (rows df) |}.

(** [df.dropna(how='all')] *)
Definition dropna_all {A} (df : frame A) : frame A :=
  {| columns := columns df;
     rows := List.filter (fun r => negb (forallb isnull r)) (rows df) |}.

(** [clean_data(df)].  Its last step turns [NaN] into [None]; both are
    the null cell here. *)
Definition clean_data {A} (df : frame A) : frame A :=
  let df := loc_columns (column_mask df) df in
  let df := dropna_all df in
  df.

(** [df.empty]: no column or no row. *)
Definition empty {A} (df : frame A) : bool :=
  ((List.length (columns df) =? 0) || (List.length (rows df) =? 0))%nat.

Definition sheets_to_process : list (string * string) :=
  [ ("Chassis", "chassis.csv");
    ("CPUs", "cpus.csv");
    ("Memory", "memory.csv");
    ("StorageDrive", "storage_drives.csv");
    ("BootDrive", "boot_drives.csv") ]%string.

(** [excel_data[sheet_name]], when the sheet is in the workbook *)
Fixpoint sheet {A} (excel_data : list (string * frame A)) (sheet_name : string)
  : option (frame A) :=
  match excel_data with
  | [] => None
  | (name, df) :: rest =>
      if String.eqb name sheet_name then Some df else sheet rest sheet_name
  end.

(** [convert_excel_to_csv], from the workbook as [read_excel] returns it
    to the files it writes, in the order in which it writes them. *)
Definition convert_excel_to_csv {A} (excel_data : list (string * frame A))
  : list (string * frame A) :=
  fold_left
    (fun (written : list (string * frame A)) '((sheet_name, csv_filename) : string * string) =>
       match sheet excel_data sheet_name with
       | Some df =>
           let df := clean_data df in
           if negb (empty df)
           then written ++ [(String.append "data/" csv_filename, df)]
           else written
       | None => written
       end)
    sheets_to_process [].

(** Every row has a cell for every column. *)
Definition shaped {A} (df : frame A) : Prop :=
  Forall (fun r => List.length r = List.length (columns df)) (rows df).

(** No cell is null. *)
Definition filled {A} (df : frame A) : Prop :=
  Forall (fun r => forallb (fun c => negb (isnull c)) r = true) (rows df).

Definition small_sheet : frame Z :=
  {| columns := ["Vendor"; "Model"; "Notes"];
     rows := [ [Some 1; Some 2; None];
               [None; None; None];
               [Some 3; None; None] ] |}.

(** ** Further sample data *)



Definition nameless_drive : Doc.drive :=
  {| Doc.vendor := Absent; Doc.model := Val "7450";
     Doc.capacity_tb := Val (384 # 25); Doc.seq_read_mbps := Val 12000%Q;
     Doc.power_active_w := Absent; Doc.preferred := None |}.


Definition bare_vendor : Doc.vendor_entry :=
  {| Doc.chassis := None; Doc.supported_sizes := None |}.



Definition fallback_files : filesystem :=
  holding fallback_json {| getsize := 200000; json_load := Some sample_document |}.


Definition stocked_sheets : csv_data :=
  {| csv_chassis := [first_listing; second_listing];
     csv_cpus := [cpu_row (Some "AMD") (Some "9354") (Some 32) (Some 1)];
     csv_memory := [];
     csv_storage_drives :=
       [ {| StorageDrive.Vendor := Some "Micron"; StorageDrive.Model := Some "7450";
            StorageDrive.Mfg_Part_no := VNone; StorageDrive.NVMe_Gen := VNone;
            StorageDrive.Form_Factor := VNone; StorageDrive.Interface := VNone;
            StorageDrive.Technology := VNone; StorageDrive.Capacity := Some "15.36TB";
            StorageDrive.Seq_Read_128K := VInt 6800;
            StorageDrive.Seq_Write_128K := VNone;
            StorageDrive.Random_Read_4K := VNone;
            StorageDrive.Random_Write_4K := VNone;
            StorageDrive.Power_Active_Idle := Some "15/5";
            StorageDrive.Tech_Spec_Sheet := VNone;
            StorageDrive.Preferred := Some 1 |} ];
     csv_boot_drives := [] |}.

(** The vendor and model pairs of the rows [process_chassis_data] does
    not skip, in the order of the rows. *)
Definition chassis_keys (chassis_data : list Chassis.row) : list (string * string) :=
  omap chassis_names chassis_data.

Definition size_or_zero (r : result Z) : Z :=
  match r with
  | Ok n => n
  | Raise _ => 0
  end.

Definition two_models : list Chassis.row :=
  [ chassis_row (Some "Supermicro") (Some "ASG-1115S") (Some "1U") (Some 8);
    chassis_row (Some "Dell") (Some "R7615") (Some "2U") (Some 24);
    chassis_row (Some "Supermicro") (Some "ASG-2115S") (Some "2U") (Some 24) ].

(** * Properties *)


(** ** The sort *)

Section SortingFacts.
Context {A K : Type} (key : A -> K) (lt : K -> K -> bool).

Hypothesis lt_asym : forall a b, lt a b = true -> lt b a = false.
Hypothesis le_trans :
  forall a b c, lt b a = false -> lt c b = false -> lt c a = false.

Lemma insort_Permutation (x : A) (l : list A) :
  Permutation (insort key lt x l) (x :: l).
Proof.
  induction l as [|y l IH]; simpl; [reflexivity|].
  destruct (lt (key y) (key x)); [|reflexivity].
  rewrite IH. apply perm_swap.
Qed.

Lemma sorted_Permutation (l : list A) : Permutation (sorted key lt l) l.
Proof.
  induction l as [|x l IH]; simpl; [reflexivity|].
  rewrite insort_Permutation. now constructor.
Qed.



End SortingFacts.





(** ** The loops of the normalisers *)


(** A property of the loop state that every turn keeps holds at the end. *)
Lemma for_each_invariant {S A} (body : S -> A -> result S) (P : S -> Prop) :
  (forall s x s', P s -> body s x = Ok s' -> P s') ->
  forall xs s s', P s -> for_each body xs s = Ok s' -> P s'.
Proof.
  intros Hstep. induction xs as [|x xs IH]; intros s s' Hs H; simpl in H.
  - now injection H as <-.
  - destruct (body s x) as [s1|] eqn:E; simpl in H; [|discriminate].
    eapply IH; [|exact H]. eapply Hstep; eassumption.
Qed.

Lemma fold_left_invariant {S A} (body : S -> A -> S) (P : S -> Prop) :
  (forall s x, P s -> P (body s x)) ->
  forall xs s, P s -> P (fold_left body xs s).
Proof.
  intros Hstep. induction xs as [|x xs IH]; intros s Hs; simpl; auto.
Qed.


Lemma kept_named (vendor model : option string) :
  (negb (truthy_str vendor) || negb (truthy_str model))%bool = false ->
  named vendor model.
Proof.
  intros H. apply orb_false_iff in H as [Hv Hm].
  split; intros ->; discriminate.
Qed.

Lemma storage_body_cases (processed processed' : list StorageDrive.entry)
  (item : StorageDrive.row) :
  storage_body processed item = Ok processed' ->
  processed' = processed \/
  exists e, processed' = processed ++ [e] /\
            named (StorageDrive.vendor e) (StorageDrive.model e).
Proof.
  unfold storage_body.
  destruct (negb (truthy_str (StorageDrive.Vendor item))
            || negb (truthy_str (StorageDrive.Model item)))%bool eqn:E.
  - intros H. injection H as <-. now left.
  - destruct (parse_capacity _); simpl; [|discriminate].
    destruct (parse_power _); simpl; [|discriminate].
    intros H. injection H as <-. right. eexists. split; [reflexivity|].
    simpl. now apply kept_named.
Qed.


Lemma cpu_body_cases (processed : list Cpu.entry) (item : Cpu.row) :
  cpu_body processed item = processed \/
  exists e, cpu_body processed item = processed ++ [e] /\
            named (Cpu.vendor e) (Cpu.model e).
Proof.
  unfold cpu_body.
  destruct (negb (truthy_str (Cpu.Vendor item))
            || negb (truthy_str (Cpu.Model item)))%bool eqn:E.
  - now left.
  - right. eexists. split; [reflexivity|]. simpl. now apply kept_named.
Qed.





Lemma sorted_Forall {A K} (key : A -> K) (lt : K -> K -> bool) (P : A -> Prop)
  (l : list A) :
  Forall P l -> Forall P (sorted key lt l).
Proof.
  intros H. eapply Permutation_Forall; [|exact H].
  symmetry. apply sorted_Permutation.
Qed.



(** ** The order of the normalised lists *)









(** ** Rows without a vendor or a model *)




Lemma storage_loop_named (data : list StorageDrive.row)
  (processed : list StorageDrive.entry) :
  for_each storage_body data [] = Ok processed ->
  Forall (fun e => named (StorageDrive.vendor e) (StorageDrive.model e)) processed.
Proof.
  apply (for_each_invariant storage_body
           (Forall (fun e => named (StorageDrive.vendor e) (StorageDrive.model e))));
    [|constructor].
  intros s x s' Hs H.
  apply storage_body_cases in H as [-> | (e & -> & He)]; [exact Hs|].
  apply Forall_app. split; [exact Hs|]. now constructor.
Qed.

Lemma cpu_loop_named (data : list Cpu.row) :
  Forall (fun e => named (Cpu.vendor e) (Cpu.model e)) (fold_left cpu_body data []).
Proof.
  apply (fold_left_invariant cpu_body
           (Forall (fun e => named (Cpu.vendor e) (Cpu.model e)))); [|constructor].
  intros s x Hs.
  destruct (cpu_body_cases s x) as [-> | (e & -> & He)]; [exact Hs|].
  apply Forall_app. split; [exact Hs|]. now constructor.
Qed.




(** ** Where an unset rank sorts, and what the validator counts *)




(** ** The size category of a chassis *)

(** C2, as stated, fails: a 1U chassis with 0 drive bays is "medium",
    although 0 <= 8. *)
Lemma one_unit_no_bays_not_small :
  ~ (forall n : Z, n <= 8 -> size_category (Some "1U") (Some n) = "small").
Proof.
  intros H. specialize (H 0 ltac:(lia)). vm_compute in H. discriminate.
Qed.

Lemma size_category_small (form_factor : option string) (drive_bays : option Z) :
  small_case form_factor drive_bays -> size_category form_factor drive_bays = "small".
Proof.
  intros [-> (n & -> & Hn0 & Hn8)]. unfold size_category. simpl.
  destruct (Z.eqb_spec n 0); [contradiction|]. simpl.
  destruct (Z.leb_spec n 8); [reflexivity|lia].
Qed.

Lemma size_category_not_small (form_factor : option string) (drive_bays : option Z) :
  ~ small_case form_factor drive_bays ->
  (bool_decide (form_factor = Some "1U") && truthy_int drive_bays
   && match drive_bays with Some n => n <=? 8 | None => false end)%bool = false.
Proof.
  intros H. case_bool_decide as Hff; simpl; [|reflexivity].
  destruct drive_bays as [n|]; simpl; [|reflexivity].
  destruct (Z.eqb_spec n 0); simpl; [reflexivity|].
  destruct (Z.leb_spec n 8); [|reflexivity].
  exfalso. apply H. split; [exact Hff|]. exists n. auto.
Qed.

(** C2, amended.  The three-way rule with the test the code makes on the
    drive-bay count: "small" for a "1U" chassis whose count is there, is
    not 0 and is at most 8; otherwise "large" for a "2U" chassis or a
    count of at least 24; otherwise "medium".  So a "1U" chassis with 1 to
    8 bays is small, one with 0 bays or no count is medium, and 30 bays
    are large whatever the form factor. *)
Theorem size_category_rule (form_factor : option string) (drive_bays : option Z) :
  (small_case form_factor drive_bays ->
     size_category form_factor drive_bays = "small") /\
  (~ small_case form_factor drive_bays -> large_case form_factor drive_bays ->
     size_category form_factor drive_bays = "large") /\
  (~ small_case form_factor drive_bays -> ~ large_case form_factor drive_bays ->
     size_category form_factor drive_bays = "medium") /\
  (forall n, 1 <= n <= 8 -> size_category (Some "1U") (Some n) = "small") /\
  size_category (Some "1U") (Some 0) = "medium" /\
  size_category (Some "1U") None = "medium" /\
  size_category form_factor (Some 30) = "large" /\
  (forall item : Chassis.row,
     Chassis.size_category (chassis_entry item)
     = size_category (or_str (Chassis.Form_Factor item) (Chassis.Column_5 item))
                     (or_int (Chassis.Drive_Bay item) (Chassis.Column_6 item))).
Proof.
  repeat split.
  - apply size_category_small.
  - intros Hs Hl. unfold size_category. rewrite (size_category_not_small _ _ Hs).
    destruct Hl as [-> | (n & -> & Hn)]; [reflexivity|].
    simpl. destruct (Z.eqb_spec n 0); [lia|]. simpl.
    destruct (Z.leb_spec 24 n); [|lia]. now rewrite orb_true_r.
  - intros Hs Hl. unfold size_category. rewrite (size_category_not_small _ _ Hs).
    case_bool_decide as Hff; simpl; [exfalso; apply Hl; now left|].
    destruct drive_bays as [n|]; simpl; [|reflexivity].
    destruct (Z.eqb_spec n 0); simpl; [reflexivity|].
    destruct (Z.leb_spec 24 n); [|reflexivity].
    exfalso. apply Hl. right. exists n. auto.
  - intros n Hn. apply size_category_small. split; [reflexivity|].
    exists n. repeat split; lia.
  - unfold size_category. simpl.
    case_bool_decide; simpl; now rewrite orb_true_r.
Qed.

Lemma size_category_rule_witness :
  size_category (Some "1U") (Some 8) = "small" /\
  size_category (Some "2U") (Some 12) = "large" /\
  size_category (Some "1U") (Some 16) = "medium".
Proof.
  split; [|split].
  - destruct (size_category_rule (Some "1U") (Some 8)) as (Hsmall & _).
    apply Hsmall. split; [reflexivity|]. exists 8. repeat split; lia.
  - destruct (size_category_rule (Some "2U") (Some 12)) as (_ & Hlarge & _).
    apply Hlarge.
    + intros [H _]. discriminate.
    + left. reflexivity.
  - destruct (size_category_rule (Some "1U") (Some 16)) as (_ & _ & Hmedium & _).
    apply Hmedium.
    + intros (_ & n & Hn & _ & Hle). injection Hn as <-. lia.
    + intros [H | (n & Hn & Hle)]; [discriminate|]. injection Hn as <-. lia.
Defined.

(** ** Capacity strings *)

(** The values the specification lists for [parse_capacity]. *)
Lemma parse_capacity_examples :
  parse_capacity (Some "15.36TB") = Ok (384 # 25) /\
  parse_capacity (Some "500GB") = Ok (1 # 2) /\
  parse_capacity (Some "2PB") = Ok 2000%Q /\
  parse_capacity None = Ok 0%Q /\
  parse_capacity (Some "unknown") = Ok 0%Q.
Proof. repeat split; vm_compute; reflexivity. Qed.

(** C1 does not hold of the code.  The cell "TBD" contains "TB"; what is
    left of it, "D", is no numeral, and the [ValueError] of [float] is
    caught nowhere: [parse_capacity] raises, and with it
    [process_storage_data] and [create_hardware_json]. *)
Theorem parse_capacity_raises :
  parse_capacity (Some "TBD") = Raise ValueError /\
  process_storage_data [to_be_decided] = Raise ValueError /\
  (forall now chassis cpus memory boot,
     create_hardware_json now
       {| csv_chassis := chassis; csv_cpus := cpus; csv_memory := memory;
          csv_storage_drives := [to_be_decided]; csv_boot_drives := boot |}
     = Raise ValueError).
Proof. repeat split. Qed.

(** The CPUs of one rank come out with the larger core count first, the
    unranked one last; a memory size that is no integer reads as 0. *)
Lemma process_cpu_data_example :
  List.map Cpu.model
    (process_cpu_data
       [ cpu_row (Some "AMD") (Some "9124") (Some 16) None;
         cpu_row (Some "AMD") (Some "9354") (Some 32) (Some 1);
         cpu_row (Some "AMD") None (Some 96) (Some 1);
         cpu_row (Some "AMD") (Some "9554") (Some 64) (Some 1) ])
  = [Some "9554"; Some "9354"; Some "9124"].
Proof. vm_compute. reflexivity. Qed.

Lemma process_memory_data_example :
  List.map Memory.size_gb
    (process_memory_data
       [ memory_row (Some "Samsung") (Some "M321") (Some "64GB") (Some 1);
         memory_row (Some "Samsung") (Some "M329") (Some "1.5GB") (Some 1);
         memory_row (Some "Samsung") (Some "M320") (Some "32GB") (Some 1);
         memory_row (Some "Samsung") (Some "M322") (Some "128 gb") None ])
  = [0; 32; 64; 0].
Proof. vm_compute. reflexivity. Qed.

(** [parse_power], next to it, catches what [float] raises. *)
Lemma parse_power_examples :
  parse_power (Some "15/5") = Ok {| active := 15; idle := 5 |} /\
  parse_power (Some "garbage") = Ok {| active := 0; idle := 0 |} /\
  parse_power (Some "x/5") = Ok {| active := 0; idle := 0 |} /\
  parse_power None = Ok {| active := 0; idle := 0 |}.
Proof. repeat split; vm_compute; reflexivity. Qed.

(** ** Erasure coding: the efficiency of a scheme *)

Lemma Qlt_bool_iff (a b : Q) : Qlt_bool a b = true <-> (a < b)%Q.
Proof.
  unfold Qlt_bool. rewrite negb_true_iff. split.
  - intros H. apply Qnot_le_lt. intros Hle. apply Qle_bool_iff in Hle. congruence.
  - intros H. destruct (Qle_bool b a) eqn:E; [|reflexivity].
    apply Qle_bool_iff in E. exfalso. eapply Qlt_not_le; eassumption.
Qed.






(** ** The run of the validator *)

(** What a run that reaches its report has gone through. *)
Lemma main_reported (fs : filesystem) (errors warnings : list message) (success : bool) :
  main fs = Ok (Reported errors warnings success) ->
  exists f data drives ec,
    fs (json_file fs) = Some f /\ json_load f = Some data /\
    validate_storage_drives (drives_of data) = Ok drives /\
    validate_erasure_coding (erasure_coding_of data) = Ok ec /\
    errors = fst (validate_json_structure data) ++ fst (validate_vendors (vendors_of data))
             ++ fst drives ++ fst (validate_cpus (cpus_of data)) ++ fst ec
             ++ fst (validate_consistency data) /\
    warnings = (snd (validate_json_structure data)
                ++ snd (validate_vendors (vendors_of data))
                ++ snd drives ++ snd (validate_cpus (cpus_of data)) ++ snd ec
                ++ snd (validate_consistency data))
               ++ check_file_sizes fs /\
    success = (List.length errors =? 0)%nat.
Proof.
  unfold main. fold (json_file fs).
  destruct (fs (json_file fs)) as [f|]; [|discriminate].
  destruct (json_load f) as [data|] eqn:Hload; [|discriminate].
  fold (vendors_of data) (drives_of data) (cpus_of data) (erasure_coding_of data).
  destruct (validate_storage_drives (drives_of data)) as [drives|] eqn:Hdrives;
    cbn [bind]; [|discriminate].
  destruct (validate_erasure_coding (erasure_coding_of data)) as [ec|] eqn:Hec;
    cbn [bind]; [|discriminate].
  intros H. injection H as <- <- <-.
  exists f, data, drives, ec. unfold extend. cbn [fst snd].
  rewrite <- ?app_assoc. repeat split; solve [reflexivity | assumption].
Qed.

Lemma main_returns (fs : filesystem) (f : file) (data : Doc.document)
  (drives ec : findings) :
  fs (json_file fs) = Some f -> json_load f = Some data ->
  validate_storage_drives (drives_of data) = Ok drives ->
  validate_erasure_coding (erasure_coding_of data) = Ok ec ->
  exists errors warnings,
    main fs = Ok (Reported errors warnings (List.length errors =? 0)%nat).
Proof.
  intros Hf Hload Hd He. unfold main. fold (json_file fs). rewrite Hf, Hload.
  fold (vendors_of data) (drives_of data) (cpus_of data) (erasure_coding_of data).
  rewrite Hd. cbn [bind]. rewrite He. cbn [bind]. eauto.
Qed.

Lemma main_success (fs : filesystem) (errors warnings : list message) (success : bool) :
  main fs = Ok (Reported errors warnings success) ->
  success = (List.length errors =? 0)%nat.
Proof.
  intros H.
  apply main_reported in H as (f & data & drives & ec & _ & _ & _ & _ & _ & _ & Hs).
  exact Hs.
Qed.

(** C6.  The exit code is 0 exactly when the run went through its checks
    and found zero errors, and it is 1 otherwise; so a run that reports
    exits 0 if and only if its list of errors is empty and 1 when it holds
    an error, whatever its list of warnings holds.  A run that stops at
    one of the two fatal notices, or on an exception, has no list and
    exits 1. *)
Theorem exit_code_reflects_errors (fs : filesystem) :
  (exit_code (main fs) = 0 <-> no_errors_found (main fs)) /\
  (~ no_errors_found (main fs) -> exit_code (main fs) = 1) /\
  (forall errors warnings success,
     main fs = Ok (Reported errors warnings success) ->
     (exit_code (main fs) = 0 <-> errors = []) /\
     (errors <> [] -> exit_code (main fs) = 1) /\
     exit_code (main fs)
     = exit_code (Ok (Reported errors [] (List.length errors =? 0)%nat))).
Proof.
  pose proof (main_success fs) as Hrep.
  assert (Hempty : forall errors warnings,
             main fs = Ok (Reported errors warnings true) -> errors = []).
  { intros errors warnings H. apply Hrep in H. symmetry in H.
    apply Nat.eqb_eq in H. now destruct errors. }
  assert (Hzero : exit_code (main fs) = 0 <-> no_errors_found (main fs)).
  { unfold no_errors_found. split.
    - destruct (main fs) as [[jf|jf|errors warnings success]|e]; simpl;
        try discriminate.
      destruct success; [|discriminate]. intros _.
      rewrite (Hempty errors warnings eq_refl). eauto.
    - intros [warnings ->]. reflexivity. }
  split; [exact Hzero|]. split.
  - intros Hno. destruct (exit_code (main fs)) eqn:E.
    + exfalso. now apply Hno, Hzero.
    + clear -E. destruct (main fs) as [[jf|jf|errors warnings [|]]|e]; simpl in E;
        congruence.
    + clear -E. destruct (main fs) as [[jf|jf|errors warnings [|]]|e]; simpl in E;
        congruence.
  - intros errors warnings success H. pose proof (Hrep _ _ _ H) as Hs.
    rewrite H. simpl. rewrite Hs.
    destruct errors as [|m errors]; simpl.
    + repeat split; congruence.
    + repeat split; try congruence; discriminate.
Qed.

Lemma exit_code_reflects_errors_witness :
  main sample_files
  = Ok (Reported [] [JSON_file_is_small (2000 / 1048576)] true) /\
  exit_code (main sample_files) = 0.
Proof.
  assert (H : main sample_files
              = Ok (Reported [] [JSON_file_is_small (2000 / 1048576)] true))
    by (vm_compute; reflexivity).
  split; [exact H|].
  destruct (exit_code_reflects_errors sample_files) as (_ & _ & Hrep).
  destruct (Hrep _ _ _ H) as (Hiff & _). apply Hiff. reflexivity.
Defined.

(** ** The size of the artifact *)

(** C8, as stated, fails: with a document that is there and does not
    parse, [main] stops at its notice and lists no warning, the one of
    [check_file_sizes] among them. *)
Lemma size_check_skipped_on_load_failure :
  ~ (forall (fs : filesystem) (f : file),
       fs public_json = Some f -> json_load f = None ->
       exists errors warnings success,
         main fs = Ok (Reported errors warnings success) /\
         incl (check_file_sizes fs) warnings).
Proof.
  intros H.
  destruct (H unparsable_files {| getsize := 2000; json_load := None |}
              eq_refl eq_refl) as (errors & warnings & success & Hmain & _).
  vm_compute in Hmain. discriminate.
Qed.

(** C8, amended.  [check_file_sizes] looks at nothing but whether
    public/data/hardware_specs.json is there and how large it is: a
    missing file is one warning, a size above 5 MB or below 0.1 MB is one
    warning, and a size between them is none; it never yields an error.
    Its findings do not depend on the other checks: in a run that reports,
    they end the list of warnings whatever came before.  [main] runs it
    only after it has loaded the document; a run whose document is missing
    or does not parse stops before it. *)
Theorem size_check_reads_only_size :
  (forall fs fs' : filesystem,
     getsize <$> fs public_json = getsize <$> fs' public_json ->
     check_file_sizes fs = check_file_sizes fs') /\
  (forall fs : filesystem,
     fs public_json = None -> check_file_sizes fs = [JSON_file_not_found_in_public_data]) /\
  (forall (fs : filesystem) (f : file),
     fs public_json = Some f ->
     check_file_sizes fs =
       if Qlt_bool 5 (megabytes (getsize f))
       then [JSON_file_is_large (megabytes (getsize f))]
       else if Qlt_bool (megabytes (getsize f)) (1 # 10)
       then [JSON_file_is_small (megabytes (getsize f))]
       else []) /\
  (forall (fs : filesystem) errors warnings success,
     main fs = Ok (Reported errors warnings success) ->
     exists before, warnings = before ++ check_file_sizes fs) /\
  (forall (fs : filesystem) (f : file),
     fs (json_file fs) = Some f -> json_load f = None ->
     main fs = Ok (Load_failed (json_file fs))) /\
  (forall fs : filesystem,
     fs (json_file fs) = None -> main fs = Ok (Not_found (json_file fs))).
Proof.
  split; [|split; [|split; [|split; [|split]]]].
  - intros fs fs' H. unfold check_file_sizes.
    destruct (fs public_json) as [f|], (fs' public_json) as [f'|]; simpl in H;
      try discriminate; [|reflexivity].
    injection H as ->. reflexivity.
  - intros fs H. unfold check_file_sizes. now rewrite H.
  - intros fs f H. unfold check_file_sizes. now rewrite H.
  - intros fs errors warnings success H.
    apply main_reported in H as (f & data & drives & ec & _ & _ & _ & _ & _ & Hw & _).
    eauto.
  - intros fs f Hf Hload. unfold main. fold (json_file fs). now rewrite Hf, Hload.
  - intros fs Hf. unfold main. fold (json_file fs). now rewrite Hf.
Qed.

Lemma size_check_reads_only_size_witness :
  check_file_sizes sample_files = check_file_sizes unparsable_files /\
  check_file_sizes sample_files = [JSON_file_is_small (megabytes 2000)] /\
  main unparsable_files = Ok (Load_failed public_json).
Proof.
  destruct size_check_reads_only_size as (Hsame & _ & Hsize & _ & Hfail & _).
  split; [|split].
  - apply Hsame. reflexivity.
  - rewrite (Hsize sample_files _ eq_refl). reflexivity.
  - apply (Hfail unparsable_files _ eq_refl). reflexivity.
Defined.

(** ** A document without vendors, drives or CPUs *)

Lemma lacks_listed (data : Doc.document) (m : message) (drives : findings) :
  lacks data m ->
  validate_storage_drives (drives_of data) = Ok drives ->
  In m (fst (validate_vendors (vendors_of data)) ++ fst drives
        ++ fst (validate_cpus (cpus_of data))).
Proof.
  intros [[-> E] | [[-> E] | [-> E]]] Hd.
  - rewrite E. simpl. now left.
  - rewrite E in Hd. simpl in Hd. injection Hd as <-.
    apply in_or_app. right. simpl. now left.
  - rewrite E. simpl. apply in_or_app. right. apply in_or_app. right. now left.
Qed.

Lemma lacks_reported (fs : filesystem) (f : file) (data : Doc.document) (m : message)
  (errors warnings : list message) (success : bool) :
  fs (json_file fs) = Some f -> json_load f = Some data -> lacks data m ->
  main fs = Ok (Reported errors warnings success) ->
  In m errors /\ success = false.
Proof.
  intros Hf Hload Hlacks H.
  pose proof (main_success _ _ _ _ H) as Hs.
  apply main_reported in H
    as (f' & data' & drives & ec & Hf' & Hload' & Hd & _ & He & _ & _).
  rewrite Hf in Hf'. injection Hf' as <-.
  rewrite Hload in Hload'. injection Hload' as <-.
  assert (Hin : In m errors).
  { rewrite He. apply in_or_app. right.
    pose proof (lacks_listed data m drives Hlacks Hd) as Hl.
    apply in_app_or in Hl as [Hl | Hl]; [apply in_or_app; now left|].
    apply in_or_app. right.
    apply in_app_or in Hl as [Hl | Hl]; [apply in_or_app; now left|].
    apply in_or_app. right. apply in_or_app. now left. }
  split; [exact Hin|].
  rewrite Hs. destruct errors; [destruct Hin | reflexivity].
Qed.

(** C9.  Each of the three checks answers an empty list with its one hard
    error, and an absent key is read as the empty list.  When the loaded
    document has no vendors, no storage drives or no CPUs, the run exits
    with 1; a run that reports lists that error and returns [False], and
    the run does report whenever the drive check and the erasure-coding
    check return.  The required top-level keys may all be there
    ([sample_document] with its vendors emptied). *)
Theorem empty_catalogue_is_an_error :
  validate_vendors [] = ([No_vendor_data_found], []) /\
  validate_storage_drives [] = Ok ([No_storage_drive_data_found], []) /\
  validate_cpus [] = ([No_CPU_data_found], []) /\
  (forall data,
     (Doc.vendors data = None -> vendors_of data = []) /\
     (Doc.storage_drives data = None -> drives_of data = []) /\
     (Doc.cpus data = None -> cpus_of data = [])) /\
  (forall (fs : filesystem) (f : file) (data : Doc.document) (m : message),
     fs (json_file fs) = Some f -> json_load f = Some data -> lacks data m ->
     exit_code (main fs) = 1 /\
     (forall errors warnings success,
        main fs = Ok (Reported errors warnings success) ->
        In m errors /\ success = false) /\
     (forall drives ec,
        validate_storage_drives (drives_of data) = Ok drives ->
        validate_erasure_coding (erasure_coding_of data) = Ok ec ->
        exists errors warnings,
          main fs = Ok (Reported errors warnings false) /\ In m errors)) /\
  (fst (validate_json_structure without_vendors) = [] /\
   lacks without_vendors No_vendor_data_found).
Proof.
  split; [reflexivity|]. split; [reflexivity|]. split; [reflexivity|].
  split; [|split].
  - intros data. unfold vendors_of, drives_of, cpus_of.
    repeat split; intros ->; reflexivity.
  - intros fs f data m Hf Hload Hlacks.
    assert (Hrep : forall errors warnings success,
               main fs = Ok (Reported errors warnings success) ->
               In m errors /\ success = false).
    { intros errors warnings success. now apply (lacks_reported fs f data). }
    split; [|split].
    + destruct (main fs) as [[jf|jf|errors warnings success]|e] eqn:E; simpl;
        try reflexivity.
      destruct (Hrep _ _ _ eq_refl) as [_ ->]. reflexivity.
    + exact Hrep.
    + intros drives ec Hd He.
      destruct (main_returns fs f data drives ec Hf Hload Hd He)
        as (errors & warnings & Hmain).
      destruct (Hrep _ _ _ Hmain) as [Hin Hs].
      exists errors, warnings. rewrite Hs in Hmain. auto.
  - split; [reflexivity|]. left. split; reflexivity.
Qed.

Lemma empty_catalogue_is_an_error_witness :
  fst (validate_json_structure without_vendors) = [] /\
  exit_code (main files_without_vendors) = 1 /\
  exists errors warnings,
    main files_without_vendors = Ok (Reported errors warnings false) /\
    In No_vendor_data_found errors.
Proof.
  destruct empty_catalogue_is_an_error as (_ & _ & _ & _ & H & _).
  destruct (H files_without_vendors
              {| getsize := 2000; json_load := Some without_vendors |}
              without_vendors No_vendor_data_found eq_refl eq_refl)
    as (Hexit & _ & Hmain).
  { left. split; reflexivity. }
  split; [reflexivity|]. split; [exact Hexit|].
  eapply Hmain; vm_compute; reflexivity.
Defined.

(** ** Chassis rows that share a vendor and a model *)

Lemma chassis_step_skip (processed : gmap string (gmap string Chassis.entry))
  (item : Chassis.row) :
  chassis_names item = None -> chassis_step processed item = processed.
Proof. intros H. unfold chassis_step. now rewrite H. Qed.

Lemma chassis_step_insert (processed : gmap string (gmap string Chassis.entry))
  (item : Chassis.row) (vendor model : string) :
  chassis_names item = Some (vendor, model) ->
  chassis_step processed item
  = <[vendor := <[model := chassis_entry item]> (default ∅ (processed !! vendor))]>
      processed.
Proof.
  intros H. unfold chassis_step. rewrite H.
  destruct (processed !! vendor) as [models|] eqn:E; simpl.
  - apply map_eq. intros v. rewrite lookup_alter, lookup_insert.
    destruct (decide (vendor = v)) as [<-|]; [|reflexivity]. now rewrite E.
  - apply alter_insert_eq.
Qed.

Lemma chassis_step_lookup (processed : gmap string (gmap string Chassis.entry))
  (item : Chassis.row) (vendor model v m : string) :
  chassis_names item = Some (vendor, model) ->
  entry_at (chassis_step processed item) v m
  = if bool_decide ((vendor, model) = (v, m)) then Some (chassis_entry item)
    else entry_at processed v m.
Proof.
  intros H. rewrite (chassis_step_insert _ _ _ _ H). unfold entry_at.
  rewrite lookup_insert.
  destruct (decide (vendor = v)) as [<-|Hv].
  - rewrite lookup_insert. destruct (decide (model = m)) as [<-|Hm].
    + now rewrite bool_decide_eq_true_2.
    + rewrite bool_decide_eq_false_2 by congruence.
      destruct (processed !! vendor); simpl; [reflexivity|apply lookup_empty].
  - rewrite bool_decide_eq_false_2 by congruence. reflexivity.
Qed.

Lemma process_chassis_lookup (chassis_data : list Chassis.row) (v m : string) :
  forall processed,
    entry_at (fold_left chassis_step chassis_data processed) v m
    = match last_row v m chassis_data with
      | Some r => Some (chassis_entry r)
      | None => entry_at processed v m
      end.
Proof.
  induction chassis_data as [|item rest IH]; intros processed; simpl; [reflexivity|].
  rewrite IH. destruct (last_row v m rest); [reflexivity|].
  destruct (chassis_names item) as [[vendor model]|] eqn:E.
  - rewrite (chassis_step_lookup _ _ _ _ _ _ E).
    destruct (decide ((vendor, model) = (v, m))) as [Heq|Hne].
    + rewrite !bool_decide_eq_true_2; congruence.
    + rewrite !bool_decide_eq_false_2; congruence.
  - rewrite (chassis_step_skip _ _ E).
    now rewrite bool_decide_eq_false_2 by discriminate.
Qed.

Lemma last_row_Some (v m : string) (chassis_data : list Chassis.row) (r : Chassis.row) :
  last_row v m chassis_data = Some r ->
  In r chassis_data /\ chassis_names r = Some (v, m).
Proof.
  induction chassis_data as [|item rest IH]; simpl; [discriminate|].
  destruct (last_row v m rest) as [r'|].
  - intros H. injection H as ->. destruct IH as [Hin Hn]; auto.
  - case_bool_decide as E; [|discriminate]. intros H. injection H as <-. auto.
Qed.

Lemma last_row_None (v m : string) (chassis_data : list Chassis.row) :
  last_row v m chassis_data = None ->
  forall r, In r chassis_data -> chassis_names r <> Some (v, m).
Proof.
  induction chassis_data as [|item rest IH]; simpl; [tauto|].
  destruct (last_row v m rest) as [r'|]; [discriminate|].
  case_bool_decide as E; [discriminate|]. intros _ r [<- | Hin]; auto.
Qed.

Lemma last_row_last (v m : string) (before after : list Chassis.row)
  (item : Chassis.row) :
  chassis_names item = Some (v, m) ->
  (forall r, In r after -> chassis_names r <> Some (v, m)) ->
  last_row v m (before ++ item :: after) = Some item.
Proof.
  intros Hitem Hafter.
  assert (Hnone : last_row v m after = None).
  { destruct (last_row v m after) as [r|] eqn:E; [|reflexivity].
    apply last_row_Some in E as [Hin Hn]. now apply Hafter in Hin. }
  induction before as [|b before IH]; simpl.
  - rewrite Hnone. now rewrite bool_decide_eq_true_2.
  - now rewrite IH.
Qed.

Lemma chassis_count_insert (processed : gmap string (gmap string Chassis.entry))
  (vendor : string) (models : gmap string Chassis.entry) :
  processed !! vendor = None ->
  chassis_count (<[vendor := models]> processed)
  = (size models + chassis_count processed)%nat.
Proof.
  intros H. unfold chassis_count.
  rewrite map_fold_insert_L; [reflexivity| |exact H].
  intros. lia.
Qed.

Lemma chassis_count_step (processed : gmap string (gmap string Chassis.entry))
  (item : Chassis.row) :
  (chassis_count (chassis_step processed item)
   <= chassis_count processed + (if is_present (chassis_names item) then 1 else 0))%nat.
Proof.
  destruct (chassis_names item) as [[vendor model]|] eqn:E; simpl.
  - rewrite (chassis_step_insert _ _ _ _ E).
    destruct (processed !! vendor) as [models|] eqn:Hv; simpl.
    + rewrite <- (insert_delete_eq processed).
      rewrite <- (insert_delete_id processed vendor models Hv) at 2.
      rewrite !chassis_count_insert by apply lookup_delete_eq.
      pose proof (map_size_insert model (chassis_entry item) models) as Hs.
      destruct (models !! model); simpl in Hs; lia.
    + rewrite chassis_count_insert by exact Hv.
      rewrite map_size_insert, lookup_empty, map_size_empty. simpl. lia.
  - rewrite (chassis_step_skip _ _ E). lia.
Qed.

Lemma chassis_count_fold (chassis_data : list Chassis.row) :
  forall processed,
    (chassis_count (fold_left chassis_step chassis_data processed)
     <= chassis_count processed + List.length (valid_rows chassis_data))%nat.
Proof.
  induction chassis_data as [|item rest IH]; intros processed; simpl; [lia|].
  specialize (IH (chassis_step processed item)).
  pose proof (chassis_count_step processed item) as Hs.
  destruct (is_present (chassis_names item)); simpl; lia.
Qed.

(** C10.  Of the rows that name a vendor and a model the last one decides
    the entry stored under them.  The nested map holds an entry under a
    vendor and a model exactly when some row of the input names them, and
    one entry only, whatever the number of such rows: it has at most as
    many entries as the input has valid rows, and fewer when two valid
    rows name the same chassis. *)
Theorem last_chassis_row_wins :
  (forall (before after : list Chassis.row) (item : Chassis.row) (v m : string),
     chassis_names item = Some (v, m) ->
     (forall r, In r after -> chassis_names r <> Some (v, m)) ->
     entry_at (process_chassis_data (before ++ item :: after)) v m
     = Some (chassis_entry item)) /\
  (forall (chassis_data : list Chassis.row) (v m : string),
     is_Some (entry_at (process_chassis_data chassis_data) v m) <->
     exists r, In r chassis_data /\ chassis_names r = Some (v, m)) /\
  (forall chassis_data : list Chassis.row,
     (chassis_count (process_chassis_data chassis_data)
      <= List.length (valid_rows chassis_data))%nat) /\
  (chassis_count (process_chassis_data [first_listing; second_listing])
   < List.length (valid_rows [first_listing; second_listing]))%nat.
Proof.
  split; [|split; [|split]].
  - intros before after item v m Hitem Hafter. unfold process_chassis_data.
    rewrite process_chassis_lookup. now rewrite (last_row_last v m before after item).
  - intros chassis_data v m. unfold process_chassis_data.
    rewrite process_chassis_lookup.
    destruct (last_row v m chassis_data) as [r|] eqn:E.
    + apply last_row_Some in E. split; [eauto|]. intros _. eauto.
    + pose proof (last_row_None v m chassis_data E) as Hnone.
      unfold entry_at. rewrite lookup_empty. split.
      * intros [x Hx]. discriminate.
      * intros (r & Hin & Hr). now apply Hnone in Hin.
  - intros chassis_data. unfold process_chassis_data.
    pose proof (chassis_count_fold chassis_data ∅) as H.
    unfold chassis_count at 2 in H. rewrite map_fold_empty in H. exact H.
  - vm_compute. lia.
Qed.

Lemma last_chassis_row_wins_witness :
  entry_at (process_chassis_data ([first_listing] ++ second_listing :: []))
    "Supermicro" "ASG-1115S"
  = Some (chassis_entry second_listing) /\
  Chassis.drive_bays (chassis_entry second_listing) = Some 16.
Proof.
  destruct last_chassis_row_wins as (Hlast & _).
  split; [|reflexivity].
  apply Hlast; [reflexivity|]. intros r [].
Defined.

(** * Further properties of the converter *)

(** ** Texts and units *)

Lemma upper_char_idempotent (c : ascii) :
  Str.upper_char (Str.upper_char c) = Str.upper_char c.
Proof. destruct c as [[] [] [] [] [] [] [] []]; reflexivity. Qed.

Lemma upper_idempotent (s : string) : Str.upper (Str.upper s) = Str.upper s.
Proof.
  induction s as [|c s IH]; simpl; [reflexivity|].
  now rewrite upper_char_idempotent, IH.
Qed.

Lemma append_cons (c : ascii) (s t : string) :
  String.append (String c s) t = String c (String.append s t).
Proof. reflexivity. Qed.

Lemma append_empty (t : string) : String.append "" t = t.
Proof. reflexivity. Qed.


Lemma contains_lacks_char (c : ascii) (rest s : string) :
  lacks_char c s = true -> Str.contains (String c rest) s = false.
Proof.
  induction s as [|c' s IH]; simpl; [reflexivity|].
  intros H. apply andb_true_iff in H as [Hc Hs]. rewrite (IH Hs), orb_false_r.
  destruct (Ascii.ascii_dec c c') as [->|Hne].
  - rewrite Ascii.eqb_refl in Hc. discriminate.
  - reflexivity.
Qed.

Lemma lacks_char_app (c : ascii) (s t : string) :
  lacks_char c (String.append s t) = (lacks_char c s && lacks_char c t)%bool.
Proof.
  induction s as [|c' s IH]; [reflexivity|].
  rewrite append_cons. cbn [lacks_char]. now rewrite IH, andb_assoc.
Qed.

(** A two-letter suffix after a text that lacks its first letter: it is
    found, and removing it leaves the text. *)
Lemma contains_suffix (a b : ascii) (u : string) :
  Str.contains (String a (String b "")) (String.append u (String a (String b "")))
  = true.
Proof.
  induction u as [|c u IH].
  - rewrite append_empty. simpl. destruct (Ascii.ascii_dec a a); [|contradiction].
    destruct (Ascii.ascii_dec b b); [reflexivity|contradiction].
  - rewrite append_cons. cbn [Str.contains]. rewrite IH. apply orb_true_r.
Qed.

Lemma replace_suffix (a b : ascii) (u : string) :
  lacks_char a u = true ->
  Str.replace (String a (String b "")) "" (String.append u (String a (String b "")))
  = u.
Proof.
  unfold Str.replace. induction u as [|c u IH]; intros H.
  - rewrite append_empty. simpl. destruct (Ascii.ascii_dec a a); [|contradiction].
    destruct (Ascii.ascii_dec b b); [reflexivity|contradiction].
  - simpl in H. apply andb_true_iff in H as [Hc Hu].
    rewrite append_cons. cbn [Str.replace_from String.prefix].
    destruct (Ascii.ascii_dec a c) as [->|Hne].
    + rewrite Ascii.eqb_refl in Hc. discriminate.
    + now rewrite (IH Hu).
Qed.

(** X1.  [parse_capacity] reads its argument in capitals: a text and its
    capitals give the same result, be it a value or an exception. *)
Theorem parse_capacity_ignores_case (s : string) :
  parse_capacity (Some (Str.upper s)) = parse_capacity (Some s).
Proof.
  destruct s as [|c s]; [reflexivity|].
  unfold parse_capacity.
  change (truthy_str (Some (Str.upper (String c s)))) with true.
  change (truthy_str (Some (String c s))) with true.
  cbn [negb orb isna]. now rewrite upper_idempotent.
Qed.



(** X3.  [parse_power] raises nothing: whatever the cell holds, it
    returns, and what it returns is either the two halves of the text as
    [float] reads them or the pair of zeros.  (It stops with [NonFinite]
    only for a half that spells inf or nan.) *)
Theorem parse_power_catches (power_str : option string) :
  (forall e, parse_power power_str = Raise e -> e = NonFinite) /\
  (forall r, parse_power power_str = Ok r ->
     r = no_power \/
     exists s a i, power_str = Some s /\ Str.split "/" s = [a; i] /\
                   Numeral.float a = Ok (active r) /\
                   Numeral.float i = Ok (idle r)).
Proof.
  unfold parse_power. fold no_power.
  destruct (negb (truthy_str power_str) || isna power_str)%bool;
    [split; [discriminate|intros r H; injection H as <-; now left]|].
  destruct power_str as [s|]; [|split; [discriminate|intros r H; injection H as <-; now left]].
  destruct (Str.contains "/" s);
    [|split; [discriminate|intros r H; injection H as <-; now left]].
  destruct (Str.split "/" s) as [|a [|i [|x rest]]] eqn:Hsplit;
    try (split; [discriminate|intros r H; injection H as <-; now left]).
  destruct (Numeral.float a) as [a'|ea] eqn:Ha; cbn [bind try_except].
  - destruct (Numeral.float i) as [i'|ei] eqn:Hi; cbn [bind try_except].
    + split; [discriminate|]. intros r H. injection H as <-. right.
      exists s, a, i. auto.
    + destruct ei; split; intros ? H; try discriminate;
        try (injection H as <-; now left).
      now injection H as <-.
  - destruct ea; split; intros ? H; try discriminate;
      try (injection H as <-; now left).
    now injection H as <-.
Qed.

Lemma parse_power_catches_witness :
  parse_power (Some "15/5") = Ok {| active := 15; idle := 5 |} /\
  Str.split "/" "15/5" = ["15"; "5"]%string.
Proof.
  assert (H : parse_power (Some "15/5") = Ok {| active := 15; idle := 5 |})
    by (vm_compute; reflexivity).
  split; [exact H|].
  destruct (parse_power_catches (Some "15/5")) as [_ Hok].
  destruct (Hok _ H) as [Hzero | (s & a & i & Hs & Hsplit & _)].
  - discriminate.
  - reflexivity.
Defined.

(** ** What the normalisers emit, and in which order *)










(** The sort is stable: it keeps the order of the records no one of which
    is smaller than another. *)
Section Stability.
Context {A K : Type} (key : A -> K) (lt : K -> K -> bool) (P : A -> bool).
Hypothesis tie : forall a b, P a = true -> P b = true -> lt (key a) (key b) = false.


End Stability.





(** ** The map of the chassis *)









(** * Further properties of the validator *)

(** ** The checks of the drives and of the CPUs *)

Lemma required_fold (M : string -> message) (fields : list (string * bool)) :
  forall errors,
    fold_left (fun (errors : list message) '((field_name, absent) : string * bool) =>
                 if absent then errors ++ [M field_name] else errors)
      fields errors
    = errors ++ List.map M (lacking fields).
Proof.
  unfold lacking.
  induction fields as [|[f [|]] fields IH]; intros errors; simpl.
  - now rewrite app_nil_r.
  - rewrite IH. now rewrite <- app_assoc.
  - apply IH.
Qed.

Lemma drive_body_raises (st : drives_state) (drive : Doc.drive) :
  unorderableb drive = true -> drive_body st drive = Raise TypeError.
Proof.
  unfold unorderableb, drive_body.
  destruct (Doc.capacity_tb drive); [| reflexivity |];
    (destruct (Doc.seq_read_mbps drive); try discriminate; intros _;
     cbn [get gt bind]; reflexivity).
Qed.

Lemma drive_body_returns (st : drives_state) (drive : Doc.drive) :
  unorderableb drive = false ->
  drive_body st drive
  = Ok {| ds_i := S (ds_i st);
          ds_errors := ds_errors st
                       ++ List.map (Drive_missing_required_field (ds_i st))
                            (lacking (drive_fields drive));
          ds_warnings := ds_warnings st ++ drive_warnings drive;
          ds_preferred := if is_preferred (Doc.preferred drive)
                          then ds_preferred st ++ [drive] else ds_preferred st |}.
Proof.
  intros H. unfold drive_body.
  rewrite (required_fold (Drive_missing_required_field (ds_i st))
             (drive_fields drive : list (string * bool)) (ds_errors st)
           : fold_left _ [ _; _; _; _; _ ] _ = _).
  unfold unorderableb in H. unfold drive_warnings.
  destruct (Doc.capacity_tb drive) as [| |c]; try discriminate;
    destruct (Doc.seq_read_mbps drive) as [| |r]; try discriminate;
    cbn [get gt bind get_none];
    try change (Qlt_bool 100 0) with false;
    try change (Qlt_bool 10000 0) with false;
    repeat match goal with |- context [Qlt_bool ?a ?b] => destruct (Qlt_bool a b) end;
    cbn [app]; rewrite ?app_nil_r, <- ?app_assoc; reflexivity.
Qed.

Lemma drives_loop (drives : list Doc.drive) :
  forall st,
    for_each drive_body drives st
    = if existsb unorderableb drives then Raise TypeError
      else Ok {| ds_i := (ds_i st + List.length drives)%nat;
                 ds_errors := ds_errors st ++ drive_errors (ds_i st) drives;
                 ds_warnings := ds_warnings st ++ List.flat_map drive_warnings drives;
                 ds_preferred := ds_preferred st ++ preferred_drives drives |}.
Proof.
  induction drives as [|d drives IH]; intros st; cbn [for_each existsb].
  - destruct st. simpl. now rewrite Nat.add_0_r, !app_nil_r.
  - destruct (unorderableb d) eqn:E.
    + now rewrite (drive_body_raises st d E).
    + rewrite (drive_body_returns st d E). cbn [bind orb]. rewrite IH.
      destruct (existsb unorderableb drives); [reflexivity|].
      cbn [ds_i ds_errors ds_warnings ds_preferred drive_errors List.flat_map].
      unfold preferred_drives. cbn [List.filter].
      f_equal. f_equal.
      * simpl. lia.
      * now rewrite <- app_assoc.
      * now rewrite <- app_assoc.
      * destruct (is_preferred (Doc.preferred d)); [|reflexivity].
        now rewrite <- app_assoc.
Qed.




Lemma drive_errors_In (drives : list Doc.drive) :
  forall start i f,
    In (Drive_missing_required_field i f) (drive_errors start drives) <->
    exists d, (start <= i)%nat /\ nth_error drives (i - start) = Some d /\
              In f (lacking (drive_fields d)).
Proof.
  induction drives as [|d drives IH]; intros start i f; cbn [drive_errors].
  - split; [intros []|]. intros (d & _ & H & _). now destruct (i - start)%nat.
  - rewrite in_app_iff, in_map_iff, IH. split.
    + intros [(f' & Heq & Hin) | (d' & Hle & Hnth & Hin)].
      * injection Heq as <- <-. exists d. rewrite Nat.sub_diag. auto.
      * exists d'. split; [lia|]. split; [|exact Hin].
        replace (i - start)%nat with (S (i - S start)) by lia. exact Hnth.
    + intros (d' & Hle & Hnth & Hin).
      destruct (i - start)%nat as [|k] eqn:E.
      * injection Hnth as <-. left. exists f. split; [|exact Hin].
        f_equal. lia.
      * right. exists d'. split; [lia|]. split; [|exact Hin].
        replace (i - S start)%nat with k by lia. exact Hnth.
Qed.

(** X10.  When the check of the drives returns on a list that is not
    empty, its errors are the missing required fields, each with the index
    of its drive: a field is listed for the index [i] exactly when the
    drive at [i] lacks it or holds [null] for it, so there is no error
    exactly when every drive carries all five fields.  Its warnings are
    those of the capacities above 100 and the read speeds above 10000, in
    the order of the drives. *)
Theorem drive_check_findings (drives_data : list Doc.drive)
  (errors warnings : list message) :
  drives_data <> [] ->
  validate_storage_drives drives_data = Ok (errors, warnings) ->
  (forall i f,
     In (Drive_missing_required_field i f) errors <->
     exists d, nth_error drives_data i = Some d /\ In f (lacking (drive_fields d))) /\
  (errors = [] <-> forall d, In d drives_data -> lacking (drive_fields d) = []) /\
  warnings = List.flat_map drive_warnings drives_data.
Proof.
  intros Hne H. unfold validate_storage_drives in H.
  destruct drives_data as [|d0 rest]; [contradiction|].
  remember (d0 :: rest) as drives eqn:Edrives. clear Edrives Hne d0 rest.
  rewrite drives_loop in H.
  destruct (existsb unorderableb drives); cbn [bind] in H; [discriminate|].
  cbn [ds_errors ds_warnings] in H. change ([] ++ ?l) with l in H.
  injection H as <- <-.
  split; [|split; [|reflexivity]].
  - intros i f. rewrite drive_errors_In. rewrite Nat.sub_0_r.
    split; [intros (d & _ & Hd); eauto|intros (d & Hd); exists d; split; [lia|exact Hd]].
  - generalize 0%nat as start.
    induction drives as [|d drives IH]; intros start; cbn [drive_errors].
    + split; [intros _ d []|reflexivity].
    + split.
      * intros H. apply app_eq_nil in H as [H1 H2].
        apply map_eq_nil in H1. intros d' [<- | Hin]; [exact H1|].
        now apply (proj1 (IH (S start)) H2).
      * intros Hall. rewrite (Hall d (or_introl eq_refl)). cbn [List.map app].
        apply IH. intros d' Hin. apply Hall. now right.
Qed.

Lemma drive_check_findings_witness :
  validate_storage_drives [sample_drive "Micron" "7400" None; nameless_drive]
  = Ok ([Drive_missing_required_field 1 "vendor";
         Drive_missing_required_field 1 "power_active_w"],
        [Drive_unusually_high_read_speed (Some "7450") (Some 12000%Q)]) /\
  nth_error [sample_drive "Micron" "7400" None; nameless_drive] 1
  = Some nameless_drive.
Proof.
  assert (H : validate_storage_drives
                [sample_drive "Micron" "7400" None; nameless_drive]
              = Ok ([Drive_missing_required_field 1 "vendor";
                     Drive_missing_required_field 1 "power_active_w"],
                    [Drive_unusually_high_read_speed (Some "7450") (Some 12000%Q)]))
    by (vm_compute; reflexivity).
  split; [exact H|].
  assert (Hne : [sample_drive "Micron" "7400" None; nameless_drive] <> [])
    by (intros Hnil; discriminate Hnil).
  destruct (drive_check_findings _ _ _ Hne H) as (Hin & _ & _).
  destruct (proj1 (Hin 1%nat "vendor"%string) (or_introl eq_refl)) as (d & Hd & _).
  reflexivity.
Defined.

Lemma cpu_check_step (st : cpus_state) (cpu : Doc.cpu) :
  cpu_check st cpu
  = {| cs_i := S (cs_i st);
       cs_errors := cs_errors st
                    ++ List.map (CPU_missing_required_field (cs_i st))
                         (lacking (cpu_fields cpu));
       cs_warnings := cs_warnings st ++ cpu_warnings cpu;
       cs_preferred := if is_preferred (Doc.cpu_preferred cpu)
                       then cs_preferred st ++ [cpu] else cs_preferred st |}.
Proof.
  unfold cpu_check.
  rewrite (required_fold (CPU_missing_required_field (cs_i st))
             (cpu_fields cpu : list (string * bool)) (cs_errors st)
           : fold_left _ [ _; _; _ ] _ = _).
  unfold cpu_warnings.
  destruct (Doc.cores cpu) as [| |n]; cbn [get]; rewrite ?app_nil_r; try reflexivity.
  destruct (Z.ltb_spec 128 n), (Z.eqb_spec n 0); cbn [negb andb];
    rewrite ?app_nil_r; try reflexivity; lia.
Qed.

Lemma cpus_loop (cpus : list Doc.cpu) :
  forall st,
    fold_left cpu_check cpus st
    = {| cs_i := (cs_i st + List.length cpus)%nat;
         cs_errors := cs_errors st ++ cpu_errors (cs_i st) cpus;
         cs_warnings := cs_warnings st ++ List.flat_map cpu_warnings cpus;
         cs_preferred := cs_preferred st ++ preferred_cpus cpus |}.
Proof.
  induction cpus as [|c cpus IH]; intros st; cbn [fold_left].
  - destruct st. simpl. now rewrite Nat.add_0_r, !app_nil_r.
  - rewrite IH, cpu_check_step.
    cbn [cs_i cs_errors cs_warnings cs_preferred cpu_errors List.flat_map].
    unfold preferred_cpus. cbn [List.filter].
    f_equal.
    + simpl. lia.
    + now rewrite <- app_assoc.
    + now rewrite <- app_assoc.
    + destruct (is_preferred (Doc.cpu_preferred c)); [|reflexivity].
      now rewrite <- app_assoc.
Qed.

Lemma cpu_errors_nil (cpus : list Doc.cpu) :
  forall start,
    cpu_errors start cpus = [] <->
    forall c, In c cpus -> lacking (cpu_fields c) = [].
Proof.
  induction cpus as [|c cpus IH]; intros start; cbn [cpu_errors].
  - split; [intros _ c []|reflexivity].
  - split.
    + intros H. apply app_eq_nil in H as [H1 H2].
      apply map_eq_nil in H1. intros c' [<- | Hin]; [exact H1|].
      now apply (proj1 (IH (S start)) H2).
    + intros Hall. rewrite (Hall c (or_introl eq_refl)). cbn [List.map app].
      apply IH. intros c' Hin. apply Hall. now right.
Qed.



(** ** The structure of the document and the vendors *)

Lemma existsb_eqb_In (k : string) (keys : list string) :
  existsb (String.eqb k) keys = true <-> In k keys.
Proof.
  rewrite existsb_exists. split.
  - intros (x & Hin & Heq). apply String.eqb_eq in Heq. now subst.
  - intros Hin. exists k. split; [exact Hin|apply String.eqb_refl].
Qed.

(** X12.  The check of the structure lists a required key exactly when
    the document lacks it, so it lists no error exactly when all six are
    there.  It looks into the metadata only when they are there: then it
    warns of each of version, generated and description that is missing,
    and a document without metadata gets the error and no warning. *)
Theorem structure_findings (data : Doc.document) :
  (In (Missing_required_key "metadata") (fst (validate_json_structure data))
   <-> Doc.metadata data = None) /\
  (In (Missing_required_key "vendors") (fst (validate_json_structure data))
   <-> Doc.vendors data = None) /\
  (In (Missing_required_key "storage_drives") (fst (validate_json_structure data))
   <-> Doc.storage_drives data = None) /\
  (In (Missing_required_key "cpus") (fst (validate_json_structure data))
   <-> Doc.cpus data = None) /\
  (In (Missing_required_key "memory") (fst (validate_json_structure data))
   <-> Doc.memory data = None) /\
  (In (Missing_required_key "erasure_coding") (fst (validate_json_structure data))
   <-> Doc.erasure_coding_ data = None) /\
  (fst (validate_json_structure data) = [] <->
   Doc.metadata data <> None /\ Doc.vendors data <> None /\
   Doc.storage_drives data <> None /\ Doc.cpus data <> None /\
   Doc.memory data <> None /\ Doc.erasure_coding_ data <> None) /\
  (Doc.metadata data = None -> snd (validate_json_structure data) = []) /\
  (forall keys k,
     Doc.metadata data = Some keys -> In k metadata_keys ->
     (In (Missing_metadata_key k) (snd (validate_json_structure data))
      <-> ~ In k keys)).
Proof.
  destruct data as [md v sd c m ec].
  assert (Hwarn : forall keys k,
             md = Some keys -> In k metadata_keys ->
             (In (Missing_metadata_key k)
                (snd (validate_json_structure
                        {| Doc.metadata := md; Doc.vendors := v;
                           Doc.storage_drives := sd; Doc.cpus := c;
                           Doc.memory := m; Doc.erasure_coding_ := ec |}))
              <-> ~ In k keys)).
  { intros keys k -> Hk. unfold validate_json_structure.
    cbn [snd Doc.metadata fold_left].
    rewrite <- (existsb_eqb_In k keys).
    pose proof (existsb_eqb_In "version" keys) as Hv.
    pose proof (existsb_eqb_In "generated" keys) as Hg.
    pose proof (existsb_eqb_In "description" keys) as Hd.
    destruct Hk as [<- | [<- | [<- | []]]];
      destruct (existsb (String.eqb "version") keys),
               (existsb (String.eqb "generated") keys),
               (existsb (String.eqb "description") keys);
      simpl; intuition congruence. }
  repeat match goal with |- _ /\ _ => split end;
    try exact Hwarn;
    destruct md, v, sd, c, m, ec; cbn; intuition congruence.
Qed.

Lemma structure_findings_witness :
  In (Missing_metadata_key "generated")
    (snd (validate_json_structure
            {| Doc.metadata := Some ["version"; "description"];
               Doc.vendors := None; Doc.storage_drives := Some [];
               Doc.cpus := Some []; Doc.memory := Some 0%nat;
               Doc.erasure_coding_ := None |})).
Proof.
  set (data := {| Doc.metadata := Some ["version"; "description"];
                  Doc.vendors := None; Doc.storage_drives := Some [];
                  Doc.cpus := Some []; Doc.memory := Some 0%nat;
                  Doc.erasure_coding_ := None |}).
  destruct (structure_findings data) as (_ & _ & _ & _ & _ & _ & _ & _ & Hw).
  apply (Hw ["version"; "description"] "generated"); [reflexivity| |].
  - right. left. reflexivity.
  - intros [H | [H | []]]; discriminate.
Defined.

Lemma vendors_loop (vendors : list (string * Doc.vendor_entry)) :
  forall errors warnings,
    fold_left
      (fun '((errors, warnings) : findings)
           '((vendor_name, vendor_data) : string * Doc.vendor_entry) =>
         match Doc.chassis vendor_data with
         | None => (errors ++ [Vendor_missing_chassis_data vendor_name], warnings)
         | Some models =>
             let warnings :=
               if is_present (Doc.supported_sizes vendor_data) then warnings
               else warnings ++ [Vendor_missing_supported_sizes vendor_name] in
             let chassis_count := List.length models in
             if (chassis_count =? 0)%nat
             then (errors, warnings ++ [Vendor_has_no_chassis_models vendor_name])
             else (errors, warnings)
         end)
      vendors (errors, warnings)
    = (errors ++ List.flat_map vendor_errors vendors,
       warnings ++ List.flat_map vendor_warnings vendors).
Proof.
  induction vendors as [|[name entry] vendors IH]; intros errors warnings;
    cbn [fold_left List.flat_map].
  - now rewrite !app_nil_r.
  - unfold vendor_errors at 1, vendor_warnings at 1. cbn [fst snd].
    destruct (Doc.chassis entry) as [models|].
    + destruct (is_present (Doc.supported_sizes entry)), models as [|m models];
        cbn [List.length Nat.eqb]; rewrite IH; cbn [app];
        rewrite ?app_nil_r, <- ?app_assoc; reflexivity.
    + rewrite IH. cbn [app]. now rewrite <- app_assoc.
Qed.

(** X13.  On a map of vendors that is not empty the check lists an error
    for a vendor exactly when its record has no [chassis] key, so no error
    exactly when all have one.  It goes on to the next vendor after that
    error: a vendor is warned of for missing [supported_sizes], or for an
    empty chassis map, only when its [chassis] key is there. *)
Theorem vendor_check_findings (vendors_data : list (string * Doc.vendor_entry)) :
  vendors_data <> [] ->
  (forall v,
     In (Vendor_missing_chassis_data v) (fst (validate_vendors vendors_data)) <->
     exists e, In (v, e) vendors_data /\ Doc.chassis e = None) /\
  (fst (validate_vendors vendors_data) = [] <->
   forall v e, In (v, e) vendors_data -> Doc.chassis e <> None) /\
  (forall v,
     In (Vendor_missing_supported_sizes v) (snd (validate_vendors vendors_data)) <->
     exists e, In (v, e) vendors_data /\ Doc.chassis e <> None /\
               Doc.supported_sizes e = None) /\
  (forall v,
     In (Vendor_has_no_chassis_models v) (snd (validate_vendors vendors_data)) <->
     exists e, In (v, e) vendors_data /\ Doc.chassis e = Some []).
Proof.
  intros Hne. unfold validate_vendors.
  destruct vendors_data as [|v0 rest]; [contradiction|].
  remember (v0 :: rest) as vendors eqn:Ev. clear Ev Hne v0 rest.
  rewrite vendors_loop. cbn [fst snd]. change ([] ++ ?l) with l.
  split; [|split; [|split]].
  - intros v. rewrite in_flat_map. split.
    + intros ([name e] & Hin & Hm). unfold vendor_errors in Hm. cbn [fst snd] in Hm.
      destruct (Doc.chassis e) eqn:Hc; [destruct Hm|].
      destruct Hm as [Hm | []]. injection Hm as ->. eauto.
    + intros (e & Hin & Hc). exists (v, e). split; [exact Hin|].
      unfold vendor_errors. cbn [fst snd]. rewrite Hc. now left.
  - split.
    + intros Hnil v e Hin Hc.
      assert (Hm : In (Vendor_missing_chassis_data v)
                     (List.flat_map vendor_errors vendors)).
      { apply in_flat_map. exists (v, e). split; [exact Hin|].
        unfold vendor_errors. cbn [fst snd]. rewrite Hc. now left. }
      rewrite Hnil in Hm. destruct Hm.
    + intros Hall. induction vendors as [|[name e] vendors IH]; [reflexivity|].
      cbn [List.flat_map]. unfold vendor_errors at 1. cbn [fst snd].
      destruct (Doc.chassis e) eqn:Hc.
      * apply IH. intros v e' Hin. apply (Hall v e'). now right.
      * exfalso. exact (Hall name e (or_introl eq_refl) Hc).
  - intros v. rewrite in_flat_map. split.
    + intros ([name e] & Hin & Hm). unfold vendor_warnings in Hm. cbn [fst snd] in Hm.
      destruct (Doc.chassis e) as [models|] eqn:Hc; [|destruct Hm].
      apply in_app_or in Hm as [Hm | Hm].
      * destruct (Doc.supported_sizes e) eqn:Hs; cbn [is_present] in Hm;
          [destruct Hm|].
        destruct Hm as [Hm | []]. injection Hm as ->.
        exists e. rewrite Hc. repeat split; [exact Hin|discriminate|exact Hs].
      * destruct models; [|destruct Hm]. destruct Hm as [Hm | []]. discriminate.
    + intros (e & Hin & Hc & Hs). exists (v, e). split; [exact Hin|].
      unfold vendor_warnings. cbn [fst snd].
      destruct (Doc.chassis e) as [models|]; [|contradiction].
      rewrite Hs. cbn [is_present]. apply in_or_app. left. now left.
  - intros v. rewrite in_flat_map. split.
    + intros ([name e] & Hin & Hm). unfold vendor_warnings in Hm. cbn [fst snd] in Hm.
      destruct (Doc.chassis e) as [models|] eqn:Hc; [|destruct Hm].
      apply in_app_or in Hm as [Hm | Hm].
      * destruct (is_present (Doc.supported_sizes e)); [destruct Hm|].
        destruct Hm as [Hm | []]. discriminate.
      * destruct models; [|destruct Hm]. destruct Hm as [Hm | []].
        injection Hm as ->. eauto.
    + intros (e & Hin & Hc). exists (v, e). split; [exact Hin|].
      unfold vendor_warnings. cbn [fst snd]. rewrite Hc.
      apply in_or_app. right. now left.
Qed.

Lemma vendor_check_findings_witness :
  validate_vendors [("Dell", bare_vendor)]
  = ([Vendor_missing_chassis_data "Dell"], []) /\
  In (Vendor_missing_chassis_data "Dell")
    (fst (validate_vendors [("Dell", bare_vendor)])).
Proof.
  assert (Hne : [("Dell"%string, bare_vendor)] <> [])
    by (intros Hnil; discriminate Hnil).
  destruct (vendor_check_findings _ Hne) as (He & _).
  split; [reflexivity|].
  apply He. exists bare_vendor. split; [left; reflexivity|reflexivity].
Defined.

(** ** The check of the schemes *)





(** ** The check across the categories *)


Lemma consistency_warnings (data : Doc.document) :
  validate_consistency data
  = ([],
     (if bool_decide (missing_vendors_of data = ∅) then []
      else [Drive_vendors_not_in_chassis_vendors (elements (missing_vendors_of data))])
     ++ (if (List.length (preferred_drives (drives_of data)) <? 3)%nat
         then [Only_preferred_drives_available
                 (List.length (preferred_drives (drives_of data)))]
         else [])
     ++ (if (List.length (preferred_cpus (cpus_of data)) <? 2)%nat
         then [Only_preferred_CPUs_available
                 (List.length (preferred_cpus (cpus_of data)))]
         else [])).
Proof.
  unfold validate_consistency.
  fold (vendors_of data) (drives_of data) (cpus_of data).
  fold (missing_vendors_of data).
  destruct (bool_decide (missing_vendors_of data = ∅)),
    (List.length (preferred_drives (drives_of data)) <? 3)%nat,
    (List.length (preferred_cpus (cpus_of data)) <? 2)%nat; reflexivity.
Qed.




(** ** The run and its files *)

Lemma main_of_public (fs : filesystem) (f : file) :
  fs public_json = Some f ->
  main fs
  = match json_load f with
    | None => Ok (Load_failed public_json)
    | Some data =>
        do drives <- validate_storage_drives (drives_of data);
        do ec <- validate_erasure_coding (erasure_coding_of data);
        let errors :=
          fst (extend (extend (extend (extend (extend (extend ([], [])
                 (validate_json_structure data))
                 (validate_vendors (vendors_of data))) drives)
                 (validate_cpus (cpus_of data))) ec) (validate_consistency data)) in
        let warnings :=
          snd (extend (extend (extend (extend (extend (extend ([], [])
                 (validate_json_structure data))
                 (validate_vendors (vendors_of data))) drives)
                 (validate_cpus (cpus_of data))) ec) (validate_consistency data))
          ++ check_file_sizes fs in
        Ok (Reported errors warnings (List.length errors =? 0)%nat)
    end.
Proof.
  intros H. unfold main. rewrite H. cbn [is_present]. rewrite H. reflexivity.
Qed.

(** X16.  [main] reads one file.  When public/data/hardware_specs.json is
    there, the file under data/ plays no part: two sets of files that hold
    the same public file give the same run, and a public file that does
    not parse ends the run although the other one might.  When the public
    file is not there and the run reports on the file under data/, the
    report holds the warning that the JSON file was not found in
    public/data/. *)
Theorem main_reads_one_file :
  (forall (fs fs' : filesystem) (f : file),
     fs public_json = Some f -> fs' public_json = Some f -> main fs = main fs') /\
  (forall (fs : filesystem) (f : file),
     fs public_json = Some f -> json_load f = None ->
     main fs = Ok (Load_failed public_json)) /\
  (forall (fs : filesystem) errors warnings success,
     fs public_json = None ->
     main fs = Ok (Reported errors warnings success) ->
     In JSON_file_not_found_in_public_data warnings).
Proof.
  split; [|split].
  - intros fs fs' f H H'. rewrite (main_of_public fs f H), (main_of_public fs' f H').
    unfold check_file_sizes. now rewrite H, H'.
  - intros fs f H Hload. rewrite (main_of_public fs f H). now rewrite Hload.
  - intros fs errors warnings success Hnone H.
    apply main_reported in H as (f & data & drives & ec & _ & _ & _ & _ & _ & -> & _).
    apply in_or_app. right. unfold check_file_sizes. rewrite Hnone. now left.
Qed.

Lemma main_reads_one_file_witness :
  main fallback_files = Ok (Reported [] [JSON_file_not_found_in_public_data] true) /\
  In JSON_file_not_found_in_public_data [JSON_file_not_found_in_public_data].
Proof.
  assert (H : main fallback_files
              = Ok (Reported [] [JSON_file_not_found_in_public_data] true))
    by (vm_compute; reflexivity).
  split; [exact H|].
  destruct main_reads_one_file as (_ & _ & Hwarn).
  exact (Hwarn fallback_files _ _ _ eq_refl H).
Defined.




Lemma megabytes_above (bytes bound : Z) :
  Qlt_bool (inject_Z bound) (megabytes bytes) = true <-> bound * 1048576 < bytes.
Proof.
  rewrite Qlt_bool_iff. unfold megabytes, Qlt, Qdiv, Qmult, Qinv, inject_Z.
  simpl. lia.
Qed.

Lemma megabytes_below_tenth (bytes : Z) :
  Qlt_bool (megabytes bytes) (1 # 10) = true <-> bytes < 104858.
Proof.
  rewrite Qlt_bool_iff. unfold megabytes, Qlt, Qdiv, Qmult, Qinv, inject_Z.
  simpl. lia.
Qed.

(** X18.  In bytes: the size of the public file draws no warning exactly
    from 104858 to 5242880 bytes; above 5242880 bytes (5 MB) the file is
    called large, below 104858 bytes (0.1 MB) small, and never both. *)
Theorem size_check_bounds (fs : filesystem) (f : file) :
  fs public_json = Some f ->
  (check_file_sizes fs = [] <-> 104858 <= getsize f <= 5242880) /\
  (check_file_sizes fs = [JSON_file_is_large (megabytes (getsize f))]
   <-> 5242880 < getsize f) /\
  (check_file_sizes fs = [JSON_file_is_small (megabytes (getsize f))]
   <-> getsize f < 104858).
Proof.
  intros H. unfold check_file_sizes. rewrite H. fold (megabytes (getsize f)).
  pose proof (megabytes_above (getsize f) 5) as Hlarge.
  pose proof (megabytes_below_tenth (getsize f)) as Hsmall.
  change (inject_Z 5) with 5%Q in Hlarge.
  destruct (Qlt_bool 5 (megabytes (getsize f))) eqn:El.
  - assert (5242880 < getsize f) by (apply Hlarge; reflexivity).
    repeat split; try discriminate; try lia; auto.
  - assert (~ 5 * 1048576 < getsize f) by (intros Hx; apply Hlarge in Hx; discriminate).
    destruct (Qlt_bool (megabytes (getsize f)) (1 # 10)) eqn:Es.
    + assert (getsize f < 104858) by (apply Hsmall; reflexivity).
      repeat split; try discriminate; try lia; auto.
    + assert (~ getsize f < 104858) by (intros Hx; apply Hsmall in Hx; discriminate).
      repeat split; try discriminate; try lia; auto.
Qed.

Lemma size_check_bounds_witness :
  check_file_sizes fallback_files = [JSON_file_not_found_in_public_data] /\
  check_file_sizes
    (holding public_json {| getsize := 104858; json_load := None |}) = [].
Proof.
  split; [reflexivity|].
  set (f := {| getsize := 104858; json_load := None |}).
  destruct (size_check_bounds (holding public_json f) f eq_refl) as (Hnone & _).
  apply Hnone. simpl. lia.
Defined.

(** * From the converter to the validator *)

Lemma drive_errors_nil (drives : list Doc.drive) :
  forall start,
    (forall d, In d drives -> lacking (drive_fields d) = []) ->
    drive_errors start drives = [].
Proof.
  induction drives as [|d drives IH]; intros start Hall; cbn [drive_errors];
    [reflexivity|].
  rewrite (Hall d (or_introl eq_refl)). cbn [List.map app].
  apply IH. intros d' Hin. apply Hall. now right.
Qed.

Lemma process_storage_data_named (data : list StorageDrive.row)
  (out : list StorageDrive.entry) :
  process_storage_data data = Ok out ->
  Forall (fun e => named (StorageDrive.vendor e) (StorageDrive.model e)) out.
Proof.
  unfold process_storage_data.
  destruct (for_each storage_body data []) as [s|] eqn:E; cbn [bind]; [|discriminate].
  intros H. injection H as <-. apply sorted_Forall. now apply storage_loop_named in E.
Qed.

Lemma doc_drive_complete (e : StorageDrive.entry) (d : Doc.drive) :
  named (StorageDrive.vendor e) (StorageDrive.model e) ->
  StorageDrive.seq_read_mbps e <> VNone ->
  doc_drive e = Some d ->
  lacking (drive_fields d) = [] /\ unorderableb d = false.
Proof.
  intros [Hv Hm] Hs. unfold doc_drive.
  destruct (StorageDrive.seq_read_mbps e) as [|z|s]; cbn [doc_number];
    [contradiction| |discriminate].
  intros H. injection H as <-.
  destruct (StorageDrive.vendor e); [|contradiction].
  destruct (StorageDrive.model e); [|contradiction].
  split; reflexivity.
Qed.

Lemma doc_cpu_complete (e : Cpu.entry) :
  named (Cpu.vendor e) (Cpu.model e) -> Cpu.cores e <> None ->
  lacking (cpu_fields (doc_cpu e)) = [].
Proof.
  intros [Hv Hm] Hc. unfold doc_cpu, cpu_fields. cbn.
  destruct (Cpu.vendor e); [|contradiction].
  destruct (Cpu.model e); [|contradiction].
  destruct (Cpu.cores e); [|contradiction].
  reflexivity.
Qed.

(** X19.  The document the converter writes passes the validator when the
    converter found a chassis, a drive and a CPU, every drive has a read
    speed and every CPU a core count: read back, it is validated without
    an error, whatever the warnings, and the exit code is 0. *)
Theorem converter_output_passes (now : string) (data : csv_data)
  (hs : hardware_specs_t) (doc : Doc.document) (fs : filesystem) (f : file) :
  create_hardware_json now data = Ok hs ->
  stocked hs ->
  to_document hs = Some doc ->
  fs (json_file fs) = Some f -> json_load f = Some doc ->
  (exists warnings, main fs = Ok (Reported [] warnings true)) /\
  exit_code (main fs) = 0.
Proof.
  intros Hcreate (Hvendors & Hdrives & Hspeed & Hcpus & Hcores) Hdoc Hf Hload.
  assert (Hnamed : Forall (fun e => named (StorageDrive.vendor e) (StorageDrive.model e))
                     (hs_storage_drives hs) /\
                   hs_cpus hs = process_cpu_data (csv_cpus data) /\
                   hs_erasure_coding hs = erasure_coding).
  { unfold create_hardware_json in Hcreate.
    destruct (process_storage_data (csv_storage_drives data)) as [out|] eqn:E;
      cbn [bind] in Hcreate; [|discriminate].
    injection Hcreate as <-. cbn.
    split; [now apply (process_storage_data_named _ _ E)|]. split; reflexivity. }
  destruct Hnamed as (Hnamed & Hcpu_eq & Hec).
  unfold to_document in Hdoc.
  destruct (mapM doc_drive (hs_storage_drives hs)) as [drives|] eqn:Hmap;
    [|discriminate].
  injection Hdoc as <-.
  apply mapM_Some in Hmap.
  (* the drives *)
  assert (Hcomplete : forall d, In d drives ->
             lacking (drive_fields d) = [] /\ unorderableb d = false).
  { clear -Hmap Hnamed Hspeed.
    induction Hmap as [|e d es ds He _ IH]; [intros d []|].
    apply Forall_cons in Hnamed as [Hn Hnamed], Hspeed as [Hs Hspeed].
    intros d' [<- | Hin]; [now apply (doc_drive_complete e)|auto]. }
  assert (Hdrives_ne : drives <> []).
  { intros ->. apply Forall2_nil_inv_r in Hmap. contradiction. }
  assert (Hcheck_drives : exists w, validate_storage_drives drives = Ok ([], w)).
  { unfold validate_storage_drives. destruct drives as [|d0 rest]; [contradiction|].
    rewrite drives_loop.
    assert (E : existsb unorderableb (d0 :: rest) = false).
    { destruct (existsb unorderableb (d0 :: rest)) eqn:E; [|reflexivity].
      apply existsb_exists in E as (d & Hin & Hd).
      destruct (Hcomplete d Hin) as [_ Hd']. congruence. }
    rewrite E. cbn [bind ds_errors ds_warnings].
    rewrite drive_errors_nil by (intros d Hin; now apply Hcomplete).
    eauto. }
  destruct Hcheck_drives as [wd Hwd].
  (* the CPUs *)
  assert (Hcheck_cpus : fst (validate_cpus (List.map doc_cpu (hs_cpus hs))) = []).
  { unfold validate_cpus.
    destruct (List.map doc_cpu (hs_cpus hs)) as [|c0 rest] eqn:Ec.
    - destruct (hs_cpus hs); [contradiction|discriminate].
    - rewrite <- Ec, cpus_loop. cbn [cs_errors fst]. change ([] ++ ?l) with l.
      apply cpu_errors_nil. intros c Hin. apply in_map_iff in Hin as (e & <- & Hin).
      apply doc_cpu_complete.
      + rewrite Hcpu_eq in Hin.
        pose proof (sorted_Forall cpu_key rank_int_lt _ _
                      (cpu_loop_named (csv_cpus data))) as Hall.
        rewrite Forall_forall in Hall. apply Hall. now apply list_elem_of_In.
      + rewrite Forall_forall in Hcores. apply Hcores. now apply list_elem_of_In. }
  (* the vendors *)
  assert (Hcheck_vendors :
            fst (validate_vendors (List.map doc_vendor (map_to_list (hs_vendors hs))))
            = []).
  { unfold validate_vendors.
    destruct (List.map doc_vendor (map_to_list (hs_vendors hs))) as [|v0 rest] eqn:Ev.
    - destruct (map_to_list (hs_vendors hs)) eqn:El; [|discriminate].
      apply map_to_list_empty_iff in El. contradiction.
    - rewrite <- Ev, vendors_loop. cbn [fst]. change ([] ++ ?l) with l.
      clear. induction (map_to_list (hs_vendors hs)) as [|v l IH]; [reflexivity|].
      cbn [List.map List.flat_map]. now rewrite IH. }
  (* the run *)
  destruct (main_returns fs f _
              ([], wd) ([], [])
              Hf Hload) as (errors & warnings & Hmain).
  { exact Hwd. }
  { unfold erasure_coding_of. cbn [Doc.erasure_coding_]. rewrite Hec.
    vm_compute. reflexivity. }
  pose proof Hmain as Hrep.
  apply main_reported in Hrep
    as (f' & data' & drives' & ec' & Hf' & Hload' & Hd' & He' & Herr & _ & _).
  rewrite Hf in Hf'. injection Hf' as <-. rewrite Hload in Hload'.
  injection Hload' as <-.
  unfold drives_of in Hd'. cbn [Doc.storage_drives] in Hd'. rewrite Hwd in Hd'.
  injection Hd' as <-.
  assert (Hec' : ec' = ([], [])).
  { unfold erasure_coding_of in He'. cbn [Doc.erasure_coding_] in He'.
    rewrite Hec in He'. vm_compute in He'. now injection He' as <-. }
  subst ec'.
  assert (Hnil : errors = []).
  { rewrite Herr. unfold vendors_of, cpus_of.
    cbn [Doc.vendors Doc.cpus].
    rewrite Hcheck_vendors, Hcheck_cpus, consistency_warnings. reflexivity. }
  rewrite Hnil in Hmain. split; [exists warnings; exact Hmain|]. now rewrite Hmain.
Qed.

Lemma converter_output_passes_witness :
  exists hs doc,
    create_hardware_json "2025-01-01T00:00:00" stocked_sheets = Ok hs /\
    to_document hs = Some doc /\
    exit_code (main (holding fallback_json
                       {| getsize := 200000; json_load := Some doc |})) = 0.
Proof.
  destruct (create_hardware_json "2025-01-01T00:00:00" stocked_sheets)
    as [hs|] eqn:Hhs; [|vm_compute in Hhs; discriminate].
  destruct (to_document hs) as [doc|] eqn:Hdoc.
  - exists hs, doc. split; [reflexivity|]. split; [exact Hdoc|].
    refine (proj2 (converter_output_passes _ _ hs doc
                     (holding fallback_json {| getsize := 200000; json_load := Some doc |})
                     {| getsize := 200000; json_load := Some doc |}
                     Hhs _ Hdoc eq_refl eq_refl)).
    vm_compute in Hhs. injection Hhs as <-.
    repeat split.
    + intros H. apply (f_equal (fun m => m !! "Supermicro")) in H.
      vm_compute in H. discriminate.
    + discriminate.
    + repeat constructor; discriminate.
    + discriminate.
    + repeat constructor; discriminate.
  - exfalso. vm_compute in Hhs. injection Hhs as <-. vm_compute in Hdoc. discriminate.
Defined.

(** * The sheets *)

Lemma select_length {B C} (mask : list bool) :
  forall (l : list B) (l' : list C),
    List.length l = List.length l' ->
    List.length (select mask l) = List.length (select mask l').
Proof.
  induction mask as [|keep mask IH]; intros [|x l] [|y l'] H; simpl in *;
    try reflexivity; try discriminate.
  injection H as H. destruct keep; simpl; auto.
Qed.

Lemma select_In {B} (mask : list bool) :
  forall (l : list B) (x : B),
    In x (select mask l) ->
    exists j, nth_error l j = Some x /\ nth_error mask j = Some true.
Proof.
  induction mask as [|keep mask IH]; intros [|y l] x H; simpl in H;
    try destruct H.
  destruct keep.
  - destruct H as [<- | H]; [exists 0%nat; auto|].
    destruct (IH l x H) as (j & Hj & Hm). exists (S j). auto.
  - destruct (IH l x H) as (j & Hj & Hm). exists (S j). auto.
Qed.

Lemma select_all {B} (mask : list bool) :
  forall l : list B,
    List.length l = List.length mask -> Forall (fun b => b = true) mask ->
    select mask l = l.
Proof.
  induction mask as [|keep mask IH]; intros [|x l] Hlen Hall; simpl in *;
    try reflexivity; try discriminate.
  apply Forall_cons in Hall as [-> Hall]. injection Hlen as Hlen.
  now rewrite IH.
Qed.

Lemma column_mask_nth {A} (df : frame A) (j : nat) :
  nth_error (column_mask df) j = Some true ->
  (j < List.length (columns df))%nat /\ mostly_filled df j = true.
Proof.
  unfold column_mask. intros H.
  assert (Hj : (j < List.length (columns df))%nat).
  { assert (Hlt : nth_error (List.map (mostly_filled df)
                               (seq 0 (List.length (columns df)))) j <> None)
      by (rewrite H; discriminate).
    apply nth_error_Some in Hlt. now rewrite length_map, length_seq in Hlt. }
  split; [exact Hj|].
  rewrite nth_error_map, nth_error_seq in H.
  destruct (Nat.ltb_spec j (List.length (columns df))); [|lia].
  simpl in H. now injection H.
Qed.

(** X20.  What [clean_data] leaves of a sheet: every row still has a cell
    for every column; no row is null throughout; every column kept had
    fewer than nine null cells in ten, and stands where it stood among the
    columns of the sheet; no row is added.  A sheet left without a column
    is left without a row, so the sheet is empty exactly when it has no
    row. *)
Theorem clean_data_leaves {A} (df : frame A) :
  shaped df ->
  shaped (clean_data df) /\
  Forall (fun r => exists cell, In cell r /\ isnull cell = false)
    (rows (clean_data df)) /\
  (forall name, In name (columns (clean_data df)) ->
     exists j, nth_error (columns df) j = Some name /\
               (10 * nulls (column df j) < 9 * List.length (rows df))%nat) /\
  (List.length (rows (clean_data df)) <= List.length (rows df))%nat /\
  (empty (clean_data df) = true <-> rows (clean_data df) = []).
Proof.
  intros Hshaped. unfold clean_data, dropna_all, loc_columns. cbn [columns rows].
  assert (Hrows : Forall (fun r => exists cell, In cell r /\ isnull cell = false)
                    (List.filter (fun r => negb (forallb isnull r))
                       (List.map (select (column_mask df)) (rows df)))).
  { apply Forall_forall. intros r Hr. apply list_elem_of_In, filter_In in Hr as [_ Hr].
    apply negb_true_iff in Hr.
    induction r as [|c r IH]; [discriminate|]. cbn [forallb] in Hr.
    destruct (isnull c) eqn:Ec.
    - destruct (IH Hr) as (cell & Hin & Hcell). exists cell. split; [now right|auto].
    - exists c. split; [now left|exact Ec]. }
  split; [|split; [exact Hrows|split; [|split]]].
  - unfold shaped. cbn [columns rows]. apply Forall_forall. intros r Hr.
    apply list_elem_of_In, filter_In in Hr as [Hr _].
    apply in_map_iff in Hr as (r0 & <- & Hr0).
    apply select_length. unfold shaped in Hshaped. rewrite Forall_forall in Hshaped.
    apply Hshaped. now apply list_elem_of_In.
  - intros name Hin. apply select_In in Hin as (j & Hj & Hm).
    apply column_mask_nth in Hm as [_ Hm]. exists j. split; [exact Hj|].
    unfold mostly_filled in Hm. now apply Nat.ltb_lt in Hm.
  - etransitivity; [apply filter_length_le|]. now rewrite length_map.
  - unfold empty. cbn [columns rows]. split.
    + intros H. apply orb_true_iff in H as [H | H].
      * apply Nat.eqb_eq in H.
        destruct (List.filter _ _) as [|r rest] eqn:E; [reflexivity|].
        exfalso.
        assert (Hr : In r (List.filter (fun r => negb (forallb isnull r))
                             (List.map (select (column_mask df)) (rows df))))
          by (rewrite E; now left).
        apply filter_In in Hr as [Hr Hnull].
        apply in_map_iff in Hr as (r0 & <- & Hr0).
        assert (Hlen : List.length (select (column_mask df) r0) = 0%nat).
        { rewrite <- H. apply select_length.
          unfold shaped in Hshaped. rewrite Forall_forall in Hshaped.
          apply Hshaped. now apply list_elem_of_In. }
        destruct (select (column_mask df) r0); [discriminate Hnull|discriminate Hlen].
      * apply Nat.eqb_eq in H. now destruct (List.filter _ _).
    + intros ->. apply orb_true_r.
Qed.

Lemma clean_data_leaves_witness :
  clean_data small_sheet
  = {| columns := ["Vendor"; "Model"]; rows := [[Some 1; Some 2]; [Some 3; None]] |} /\
  shaped (clean_data small_sheet).
Proof.
  split; [reflexivity|].
  apply (clean_data_leaves small_sheet). repeat constructor.
Defined.

(** X21.  A sheet without a null cell that has a row and a column is left
    as it is. *)
Theorem clean_data_keeps_filled {A} (df : frame A) :
  shaped df -> filled df -> empty df = false -> clean_data df = df.
Proof.
  intros Hshaped Hfilled Hempty.
  unfold empty in Hempty. apply orb_false_iff in Hempty as [Hcols Hrows].
  apply Nat.eqb_neq in Hcols, Hrows.
  assert (Hnulls : forall j, nulls (column df j) = 0%nat \/
                             (List.length (columns df) <= j)%nat).
  { intros j. destruct (Nat.lt_ge_cases j (List.length (columns df))) as [Hj|Hj];
      [left|now right].
    unfold nulls, column. unfold filled in Hfilled. unfold shaped in Hshaped.
    clear Hrows. induction (rows df) as [|r rs IH]; [reflexivity|].
    apply Forall_cons in Hfilled as [Hr Hfilled], Hshaped as [Hlen Hshaped].
    cbn [List.map List.filter].
    assert (Hcell : isnull (nth j r None) = false).
    { rewrite forallb_forall in Hr. apply negb_true_iff, Hr, nth_In. lia. }
    rewrite Hcell. now apply IH. }
  assert (Hmask : Forall (fun b => b = true) (column_mask df)).
  { unfold column_mask. apply Forall_forall. intros b Hb.
    apply list_elem_of_In, in_map_iff in Hb as (j & <- & Hj). apply in_seq in Hj.
    unfold mostly_filled. destruct (Hnulls j) as [-> | Hge]; [|lia].
    apply Nat.ltb_lt. lia. }
  assert (Hlen : List.length (column_mask df) = List.length (columns df)).
  { unfold column_mask. now rewrite length_map, length_seq. }
  unfold clean_data, dropna_all, loc_columns. cbn [columns rows].
  destruct df as [cols rs]. cbn [columns rows] in *. f_equal.
  - now apply select_all.
  - unfold shaped, filled in *. cbn [columns rows] in *.
    clear Hrows Hnulls.
    remember (column_mask {| columns := cols; rows := rs |}) as mask eqn:Emask.
    clear Emask. induction rs as [|r rs IH]; [reflexivity|].
    apply Forall_cons in Hfilled as [Hr Hfilled], Hshaped as [Hr_len Hshaped].
    cbn [List.map List.filter].
    rewrite (select_all _ r) by (congruence || assumption).
    assert (Hkeep : negb (forallb isnull r) = true).
    { destruct r as [|c r]; [simpl in Hr_len; lia|].
      cbn [forallb] in *. apply andb_true_iff in Hr as [Hc _].
      apply negb_true_iff in Hc. now rewrite Hc. }
    rewrite Hkeep. f_equal. now apply IH.
Qed.

Lemma clean_data_keeps_filled_witness :
  clean_data {| columns := ["Vendor"; "Model"]; rows := [[Some 1; Some 2]] |}
  = {| columns := ["Vendor"; "Model"]; rows := [[Some 1; Some 2]] |}.
Proof.
  apply (clean_data_keeps_filled
           {| columns := ["Vendor"; "Model"]; rows := [[Some 1; Some 2]] |});
    [repeat constructor|repeat constructor|reflexivity].
Defined.

Lemma select_nth {C} (mask : list bool) :
  forall (cols : list C) (j : nat),
    List.length cols = List.length mask ->
    (j < List.length (select mask cols))%nat ->
    exists j',
      nth_error mask j' = Some true /\
      forall (B : Type) (l : list B) (d : B), nth j (select mask l) d = nth j' l d.
Proof.
  induction mask as [|keep mask IH]; intros [|c cols] j Hlen Hj; simpl in *;
    try lia; try discriminate.
  injection Hlen as Hlen. destruct keep.
  - destruct j as [|j].
    + exists 0%nat. split; [reflexivity|]. intros B [|x l] d; reflexivity.
    + simpl in Hj. destruct (IH cols j Hlen ltac:(lia)) as (j' & Hm & Hnth).
      exists (S j'). split; [exact Hm|].
      intros B [|x l] d; simpl; [now destruct j|apply Hnth].
  - destruct (IH cols j Hlen Hj) as (j' & Hm & Hnth).
    exists (S j'). split; [exact Hm|].
    intros B [|x l] d; simpl; [now destruct j|apply Hnth].
Qed.

(** Dropping the rows that are null throughout takes as many null cells
    from a column as it takes rows. *)
Lemma dropna_column {A} (rs : list (list (option A))) (j : nat) :
  exists dropped,
    nulls (List.map (fun r => nth j r None) rs)
    = (nulls (List.map (fun r => nth j r None)
                (List.filter (fun r => negb (forallb isnull r)) rs)) + dropped)%nat /\
    List.length rs
    = (List.length (List.filter (fun r => negb (forallb isnull r)) rs) + dropped)%nat.
Proof.
  unfold nulls. induction rs as [|r rs (dropped & IHn & IHl)]; [exists 0%nat; auto|].
  cbn [List.map List.filter List.length].
  destruct (forallb isnull r) eqn:Er; cbn [negb].
  - assert (Hcell : isnull (nth j r None) = true).
    { destruct (Nat.lt_ge_cases j (List.length r)) as [Hj|Hj].
      - rewrite forallb_forall in Er. apply Er, nth_In, Hj.
      - now rewrite nth_overflow. }
    rewrite Hcell. cbn [List.length]. exists (S dropped). lia.
  - cbn [List.map List.filter].
    destruct (isnull (nth j r None)); cbn [List.length]; exists dropped; lia.
Qed.

(** X22.  Cleaning a cleaned sheet changes nothing: the columns that were
    kept stay mostly filled when the null rows are gone, and no null row
    is left. *)
Theorem clean_data_idempotent {A} (df : frame A) :
  shaped df -> clean_data (clean_data df) = clean_data df.
Proof.
  intros Hshaped.
  set (mask := column_mask df).
  set (P := loc_columns mask df).
  assert (Hmask_len : List.length (columns df) = List.length mask).
  { unfold mask, column_mask. now rewrite length_map, length_seq. }
  assert (HshapedP : shaped P).
  { unfold shaped, P, loc_columns. cbn [columns rows]. apply Forall_forall.
    intros r Hr. apply list_elem_of_In, in_map_iff in Hr as (r0 & <- & Hr0).
    apply select_length. unfold shaped in Hshaped. rewrite Forall_forall in Hshaped.
    apply Hshaped. now apply list_elem_of_In. }
  assert (HfilledP : forall j, (j < List.length (columns P))%nat ->
             (10 * nulls (column P j) < 9 * List.length (rows P))%nat).
  { intros j Hj. unfold P, loc_columns in *. cbn [columns rows] in *.
    destruct (select_nth mask (columns df) j Hmask_len Hj) as (j' & Hm & Hnth).
    apply column_mask_nth in Hm as [_ Hm]. unfold mostly_filled in Hm.
    apply Nat.ltb_lt in Hm. unfold column in *. cbn [rows].
    rewrite length_map, map_map.
    erewrite map_ext; [exact Hm|]. intros r. apply Hnth. }
  change (clean_data df) with (dropna_all P).
  set (c := dropna_all P).
  assert (Hshapedc : shaped c).
  { unfold shaped, c, dropna_all in *. cbn [columns rows].
    apply Forall_forall. intros r Hr. apply list_elem_of_In, filter_In in Hr as [Hr _].
    rewrite Forall_forall in HshapedP. apply HshapedP. now apply list_elem_of_In. }
  assert (Hmaskc : Forall (fun b => b = true) (column_mask c)).
  { unfold column_mask. apply Forall_forall. intros b Hb.
    apply list_elem_of_In, in_map_iff in Hb as (j & <- & Hj). apply in_seq in Hj.
    unfold mostly_filled. apply Nat.ltb_lt.
    assert (HjP : (j < List.length (columns P))%nat)
      by (unfold c, dropna_all in Hj; cbn [columns] in Hj; lia).
    specialize (HfilledP j HjP). unfold column in *.
    unfold c, dropna_all. cbn [rows].
    destruct (dropna_column (rows P) j) as (dropped & Hn & Hl). lia. }
  assert (Hlenc : List.length (column_mask c) = List.length (columns c)).
  { unfold column_mask. now rewrite length_map, length_seq. }
  unfold clean_data at 1. unfold dropna_all at 1, loc_columns. cbn [columns rows].
  destruct c as [cols rs] eqn:Ec. cbn [columns rows] in *. f_equal.
  - now apply select_all.
  - assert (Hkept : Forall (fun r => negb (forallb isnull r) = true) rs).
    { assert (Hrs : rs = rows (dropna_all P)) by (fold c; now rewrite Ec).
      rewrite Hrs. unfold dropna_all. cbn [rows]. apply Forall_forall.
      intros r Hr. now apply list_elem_of_In, filter_In in Hr as [_ Hr]. }
    unfold shaped in Hshapedc. cbn [columns rows] in Hshapedc.
    remember (column_mask {| columns := cols; rows := rs |}) as m eqn:Em.
    clear -Hshapedc Hkept Hmaskc Hlenc.
    induction rs as [|r rs IH]; [reflexivity|].
    apply Forall_cons in Hshapedc as [Hr Hshapedc], Hkept as [Hk Hkept].
    cbn [List.map List.filter].
    rewrite (select_all m r) by (congruence || assumption).
    rewrite Hk. f_equal. now apply IH.
Qed.

Lemma clean_data_idempotent_witness :
  clean_data (clean_data small_sheet) = clean_data small_sheet.
Proof. apply (clean_data_idempotent small_sheet). repeat constructor. Defined.

Lemma convert_fold {A} (excel_data : list (string * frame A))
  (sheets : list (string * string)) :
  forall written path df,
    In (path, df)
      (fold_left
         (fun (written : list (string * frame A))
              '((sheet_name, csv_filename) : string * string) =>
            match sheet excel_data sheet_name with
            | Some df =>
                let df := clean_data df in
                if negb (empty df)
                then written ++ [(String.append "data/" csv_filename, df)]
                else written
            | None => written
            end)
         sheets written)
    <-> In (path, df) written \/
        exists sheet_name csv_filename raw,
          In (sheet_name, csv_filename) sheets /\
          sheet excel_data sheet_name = Some raw /\
          path = String.append "data/" csv_filename /\
          df = clean_data raw /\ empty df = false.
Proof.
  induction sheets as [|[sheet_name csv_filename] sheets IH]; intros written path df;
    cbn [fold_left].
  - split; [now left|]. intros [H | (s & c & raw & [] & _)]. exact H.
  - rewrite IH. split.
    + intros [H | (s & c & raw & Hin & Hrest)];
        [|right; exists s, c, raw; split; [now right|exact Hrest]].
      destruct (sheet excel_data sheet_name) as [raw|] eqn:Hs; [|now left].
      cbn zeta in H. destruct (empty (clean_data raw)) eqn:He; cbn [negb] in H;
        [now left|].
      apply in_app_or in H as [H | [H | []]]; [now left|].
      injection H as <- <-. right. exists sheet_name, csv_filename, raw.
      split; [now left|auto].
    + intros [H | (s & c & raw & [Heq | Hin] & Hs & -> & -> & He)].
      * left. destruct (sheet excel_data sheet_name) as [raw|]; [|exact H].
        cbn zeta. destruct (negb (empty (clean_data raw))); [|exact H].
        apply in_or_app. now left.
      * injection Heq as -> ->. left. rewrite Hs. cbn zeta. rewrite He.
        cbn [negb]. apply in_or_app. right. now left.
      * right. exists s, c, raw. auto.
Qed.

(** X23.  [convert_excel_to_csv] writes a file exactly for each of its
    five sheets that is in the workbook and is not empty once cleaned:
    the file is named after the sheet, under data/, and holds the cleaned
    sheet.  So it writes no empty file, no file for another sheet and at
    most five files. *)
Theorem convert_writes {A} (excel_data : list (string * frame A)) :
  (forall path df,
     In (path, df) (convert_excel_to_csv excel_data) <->
     exists sheet_name csv_filename raw,
       In (sheet_name, csv_filename) sheets_to_process /\
       sheet excel_data sheet_name = Some raw /\
       path = String.append "data/" csv_filename /\
       df = clean_data raw /\ empty df = false) /\
  (List.length (convert_excel_to_csv excel_data) <= 5)%nat.
Proof.
  split.
  - intros path df. unfold convert_excel_to_csv. rewrite convert_fold.
    split; [intros [[] | H]; exact H|now right].
  - unfold convert_excel_to_csv, sheets_to_process. cbn [fold_left].
    repeat match goal with
           | |- context [sheet excel_data ?s] => destruct (sheet excel_data s)
           end;
      cbn zeta;
      repeat match goal with
             | |- context [negb (empty ?d)] => destruct (negb (empty d))
             end;
      rewrite ?length_app; simpl; lia.
Qed.

Lemma convert_writes_witness :
  convert_excel_to_csv [("Notes", small_sheet); ("CPUs", small_sheet)]
  = [("data/cpus.csv", clean_data small_sheet)] /\
  In ("data/cpus.csv"%string, clean_data small_sheet)
    (convert_excel_to_csv [("Notes", small_sheet); ("CPUs", small_sheet)]).
Proof.
  split; [reflexivity|].
  destruct (convert_writes [("Notes"%string, small_sheet); ("CPUs"%string, small_sheet)])
    as [H _].
  apply H. exists "CPUs"%string, "cpus.csv"%string, small_sheet.
  repeat split. right. left. reflexivity.
Defined.

(** * What the converter parses, and in which order *)




Lemma truthy_str_app (u : string) (a : ascii) (v : string) :
  truthy_str (Some (String.append u (String a v))) = true.
Proof. destruct u; [rewrite append_empty|rewrite append_cons]; reflexivity. Qed.

(** X25.  The size of a memory module is read with the capitals ["GB"]
    only: for a text [s] without the letter G, [s] followed by "GB" gives
    what [int] reads from [s], and 0 when [int] raises; [s] itself and [s]
    followed by "gb" give 0. *)
Theorem parse_size_reads (s : string) :
  lacks_char "G" s = true ->
  parse_size (Some (String.append s "GB")) = size_or_zero (Numeral.int s) /\
  parse_size (Some (String.append s "gb")) = 0 /\
  parse_size (Some s) = 0.
Proof.
  intros H. unfold parse_size. split; [|split].
  - rewrite truthy_str_app, contains_suffix, (replace_suffix _ _ _ H).
    reflexivity.
  - rewrite truthy_str_app, contains_lacks_char; [reflexivity|].
    rewrite lacks_char_app, H. reflexivity.
  - rewrite (contains_lacks_char _ _ _ H), andb_false_r. reflexivity.
Qed.

Lemma parse_size_reads_witness :
  parse_size (Some "32GB"%string) = 32 /\
  parse_size (Some "32gb"%string) = 0 /\
  parse_size (Some "32"%string) = 0.
Proof. apply (parse_size_reads "32"). reflexivity. Defined.

Lemma chassis_step_commute (processed : gmap string (gmap string Chassis.entry))
  (a b : Chassis.row) :
  (forall k, chassis_names a = Some k -> chassis_names b <> Some k) ->
  chassis_step (chassis_step processed a) b
  = chassis_step (chassis_step processed b) a.
Proof.
  intros Hne.
  destruct (chassis_names a) as [[v m]|] eqn:Ea;
    [|now rewrite !(chassis_step_skip _ a Ea)].
  destruct (chassis_names b) as [[v' m']|] eqn:Eb;
    [|now rewrite !(chassis_step_skip _ b Eb)].
  rewrite (chassis_step_insert _ _ _ _ Eb), (chassis_step_insert _ _ _ _ Ea),
    (chassis_step_insert _ _ _ _ Ea), (chassis_step_insert _ _ _ _ Eb).
  destruct (decide (v = v')) as [<-|Hv].
  - assert (Hm : m <> m') by (intros <-; now apply (Hne (v, m))).
    rewrite !lookup_insert_eq, !insert_insert_eq. cbn [default].
    f_equal. now apply insert_insert_ne.
  - rewrite !lookup_insert_ne by congruence. now apply insert_insert_ne.
Qed.

Lemma process_chassis_Permutation (data data' : list Chassis.row) :
  Permutation data data' ->
  NoDup (chassis_keys data) ->
  forall processed,
    fold_left chassis_step data processed = fold_left chassis_step data' processed.
Proof.
  unfold chassis_keys.
  induction 1 as [|x l l' Hperm IH|x y l|l l' l'' H1 IH1 H2 IH2];
    intros Hnodup processed.
  - reflexivity.
  - cbn [fold_left]. apply IH.
    change (omap chassis_names (x :: l))
      with (match chassis_names x with
            | Some k => k :: omap chassis_names l
            | None => omap chassis_names l
            end) in Hnodup.
    destruct (chassis_names x); [now apply NoDup_cons in Hnodup as [_ ?]|exact Hnodup].
  - cbn [fold_left]. f_equal. apply chassis_step_commute.
    intros k Hy Hx.
    change (omap chassis_names (y :: x :: l))
      with (match chassis_names y with
            | Some k => k :: omap chassis_names (x :: l)
            | None => omap chassis_names (x :: l)
            end) in Hnodup.
    change (omap chassis_names (x :: l))
      with (match chassis_names x with
            | Some k => k :: omap chassis_names l
            | None => omap chassis_names l
            end) in Hnodup.
    rewrite Hy, Hx in Hnodup.
    apply NoDup_cons in Hnodup as [Hnotin _]. apply Hnotin. now left.
  - rewrite IH1 by exact Hnodup. apply IH2.
    now rewrite <- (omap_Permutation chassis_names _ _ H1).
Qed.

(** X26.  When no two rows of the chassis sheet that have a vendor and a
    model share both, the order of the rows does not matter: any
    rearrangement of the sheet gives the same map, vendor by vendor and
    model by model.  (With C10: the order counts only among rows that
    share both names.) *)
Theorem chassis_order_irrelevant (data data' : list Chassis.row) :
  NoDup (chassis_keys data) -> Permutation data data' ->
  process_chassis_data data = process_chassis_data data'.
Proof.
  intros Hnodup Hperm. unfold process_chassis_data.
  now apply process_chassis_Permutation.
Qed.

Lemma chassis_order_irrelevant_witness :
  process_chassis_data two_models = process_chassis_data (rev two_models).
Proof.
  apply (chassis_order_irrelevant two_models (rev two_models)).
  - apply (bool_decide_unpack _). vm_compute. reflexivity.
  - apply Permutation_rev.
Defined.
